(** * The pure runner's engagement protocol (api/agent/pure_runner.go)
      and the load balancer's runner interface (api/agent/lb_pool.go)

    A shallow embedding of the two Go files.  The stream of one engagement
    is a log of the frames handed to [Send], each with the value [Send]
    returned; the call state that the receive loop and the executor
    goroutine share is one record that both activities read and write.
    Logging, the in-flight counter and the server set-up have no part in
    the protocol and are left out. *)

From Stdlib Require Import String List ZArith Lia Bool.
From Stdlib Require Import Strings.Byte.
Import ListNotations.
Local Open Scope string_scope.
Local Open Scope list_scope.

(** ** Go values *)

(** A non-nil [error], identified with its text; a Go [error] is nil or such
    a value. *)
Definition error := string.
Definition go_error := option error.

(** [fmt.Sprintf("%v", err)] for a non-nil [err]. *)
Definition Sprintf_v (err : error) : string := err.

(** [fmt.Errorf(prefix + "%v", err)]. *)
Definition Errorf (prefix : string) (err : error) : error :=
  String.append prefix err.

(** [int32(x)] for an [int] x: two's complement truncation. *)
Definition int32 (x : Z) : Z := ((x + 2 ^ 31) mod 2 ^ 32 - 2 ^ 31)%Z.

(** * lb_pool.go *)

Module LbPool.

(** [type Runner interface]: the state a runner handle holds is [S]. *)
Class Runner (S Ctx Call : Type) := {
  TryExec : S -> Ctx -> Call -> bool * go_error;
  Close : S -> S;
  Address : S -> string
}.

(** [type nullRunner struct{}]. *)
Inductive nullRunner : Type := mk_nullRunner.

#[export] Instance nullRunner_Runner (Ctx Call : Type)
  : Runner nullRunner Ctx Call := {
  TryExec := fun _ _ _ => (false, None);
  Close := fun n => n;
  Address := fun _ => EmptyString
}.

(** [var NullRunner Runner = &nullRunner{}]. *)
Definition NullRunner : nullRunner := mk_nullRunner.

End LbPool.

(** * pure_runner.go *)

Module PureRunner.

(** ** Wire messages (the generated [runner] package, as the code uses it) *)

Record HttpHeader := { Key : string; Value : string }.

(** Server to client: the four bodies of [runner.RunnerMsg] this file
    builds.  A field the code leaves out has Go's zero value. *)
Inductive RunnerMsg :=
| RunnerMsg_Acknowledged (Committed : bool) (Details : string)
                         (SlotAllocationLatency : string)
| RunnerMsg_ResultStart (Headers : list HttpHeader) (StatusCode : Z)
| RunnerMsg_Data (Data : list byte) (Eof : bool)
| RunnerMsg_Finished (Success : bool) (Details : string).

(** Client to server: the bodies the type switch of [Engage] tells apart;
    [ClientMsg_other] is whatever lands in its [default] case. *)
Inductive ClientMsg :=
| ClientMsg_Try (ModelsCallJson : string)
| ClientMsg_Data (Data : list byte) (Eof : bool)
| ClientMsg_other.

(** What [engagement.Recv()] returns. *)
Inductive RecvResult :=
| Recv_err (err : error)
| Recv_msg (msg : ClientMsg).

(** ** Collaborators *)

(** [http.Header]: keys with their values, in the order [range] visits
    them. *)
Definition http_Header := list (string * list string).

(** The fields of [models.Call] and of the agent's [call] that this file
    reads: [Model().ID] and whether [reservedSlot] is nil. *)
Record models_Call := { ID : string }.
Definition Slot := unit.
Record call := { Model : models_Call; reservedSlot : option Slot }.

(** The write end of [io.Pipe()]: writing after [Close] fails with
    [io.ErrClosedPipe].  The read end is the engine's and is not part of
    the state: a write on an open pipe is recorded as taken by a reader
    that is reading.  A reader that stops reading (the write then blocks) or
    closes its end (the write then fails) is outside this model, so
    [written] is what the session handed to the pipe. *)
Record PipeWriter := { written : list byte; closed : bool }.

Definition ErrClosedPipe : error := "io: read/write on closed pipe"%string.

Definition new_Pipe : PipeWriter := {| written := []; closed := false |}.

Definition PipeWriter_Write (p : PipeWriter) (data : list byte)
  : PipeWriter * (Z * go_error) :=
  if closed p then (p, (0%Z, Some ErrClosedPipe))
  else ({| written := written p ++ data; closed := false |},
        (Z.of_nat (length data), None)).

Definition PipeWriter_Close (p : PipeWriter) : PipeWriter :=
  {| written := written p; closed := true |}.

(** What the session cannot decide itself.  [send_result n] is what the
    [n]-th [Send] on the stream returns; [GetCall] is asked at a given
    reading of the clock. *)
Record Env := {
  send_result : nat -> go_error;
  json_Unmarshal : string -> models_Call + error;
  GetCall : nat -> models_Call -> call + error;
  time_Now : nat -> Z;
  Duration_String : Z -> string
}.

(** ** State *)

Record writerFacade := {
  outHeaders : http_Header;
  outStatus : Z;
  headerWritten : bool
}.

Record callState := {
  c : option call;
  w : writerFacade;
  input : option PipeWriter;
  started : bool;
  receivedTime : Z;
  allocatedTime : Z;
  streamError : go_error
}.

(** The goroutine [handleData] launches: not yet launched, inside
    [pr.a.Submit], or finished. *)
Inductive Goroutine := NotLaunched | InSubmit | Done.

(** The receive loop of [Engage]: still looping, or returned. *)
Inductive Loop := Receiving | Returned (err : go_error).

(** One engagement.  [engagement] is the log of [Send] attempts, oldest
    first, each with what [Send] returned. *)
Record Session := {
  state : callState;
  engagement : list (RunnerMsg * go_error);
  clock : nat;
  executor : Goroutine;
  receive_loop : Loop;
  panicked : bool
}.

Definition set_state (f : callState -> callState) (s : Session) : Session :=
  {| state := f (state s); engagement := engagement s; clock := clock s;
     executor := executor s; receive_loop := receive_loop s;
     panicked := panicked s |}.

Definition set_engagement (l : list (RunnerMsg * go_error)) (s : Session)
  : Session :=
  {| state := state s; engagement := l; clock := clock s;
     executor := executor s; receive_loop := receive_loop s;
     panicked := panicked s |}.

Definition set_clock (n : nat) (s : Session) : Session :=
  {| state := state s; engagement := engagement s; clock := n;
     executor := executor s; receive_loop := receive_loop s;
     panicked := panicked s |}.

Definition set_executor (g : Goroutine) (s : Session) : Session :=
  {| state := state s; engagement := engagement s; clock := clock s;
     executor := g; receive_loop := receive_loop s;
     panicked := panicked s |}.

Definition set_receive_loop (l : Loop) (s : Session) : Session :=
  {| state := state s; engagement := engagement s; clock := clock s;
     executor := executor s; receive_loop := l;
     panicked := panicked s |}.

Definition set_panicked (s : Session) : Session :=
  {| state := state s; engagement := engagement s; clock := clock s;
     executor := executor s; receive_loop := receive_loop s;
     panicked := true |}.

Definition set_c (x : option call) (st : callState) : callState :=
  {| c := x; w := w st; input := input st; started := started st;
     receivedTime := receivedTime st; allocatedTime := allocatedTime st;
     streamError := streamError st |}.

Definition set_w (f : writerFacade -> writerFacade) (st : callState)
  : callState :=
  {| c := c st; w := f (w st); input := input st; started := started st;
     receivedTime := receivedTime st; allocatedTime := allocatedTime st;
     streamError := streamError st |}.

Definition set_input (x : option PipeWriter) (st : callState) : callState :=
  {| c := c st; w := w st; input := x; started := started st;
     receivedTime := receivedTime st; allocatedTime := allocatedTime st;
     streamError := streamError st |}.

Definition set_started (x : bool) (st : callState) : callState :=
  {| c := c st; w := w st; input := input st; started := x;
     receivedTime := receivedTime st; allocatedTime := allocatedTime st;
     streamError := streamError st |}.

Definition set_receivedTime (x : Z) (st : callState) : callState :=
  {| c := c st; w := w st; input := input st; started := started st;
     receivedTime := x; allocatedTime := allocatedTime st;
     streamError := streamError st |}.

Definition set_allocatedTime (x : Z) (st : callState) : callState :=
  {| c := c st; w := w st; input := input st; started := started st;
     receivedTime := receivedTime st; allocatedTime := x;
     streamError := streamError st |}.

Definition set_streamError (x : go_error) (st : callState) : callState :=
  {| c := c st; w := w st; input := input st; started := started st;
     receivedTime := receivedTime st; allocatedTime := allocatedTime st;
     streamError := x |}.

Definition set_outHeaders (h : http_Header) (f : writerFacade)
  : writerFacade :=
  {| outHeaders := h; outStatus := outStatus f;
     headerWritten := headerWritten f |}.

Definition set_outStatus (x : Z) (f : writerFacade) : writerFacade :=
  {| outHeaders := outHeaders f; outStatus := x;
     headerWritten := headerWritten f |}.

Definition set_headerWritten (x : bool) (f : writerFacade) : writerFacade :=
  {| outHeaders := outHeaders f; outStatus := outStatus f;
     headerWritten := x |}.

(** ** Computations over a session

    A computation returns a value and the session it leaves, or panics (a
    nil dereference), which ends the process. *)

Inductive Result (A : Type) :=
| Val (a : A) (s : Session)
| Panic (s : Session).
Arguments Val {A} a s.
Arguments Panic {A} s.

Definition M (A : Type) := Session -> Result A.

Definition ret {A} (a : A) : M A := fun s => Val a s.

Definition bind {A B} (m : M A) (k : A -> M B) : M B :=
  fun s => match m s with
           | Val a s' => k a s'
           | Panic s' => Panic s'
           end.

Definition gets {A} (f : callState -> A) : M A := fun s => Val (f (state s)) s.

Definition modify (f : callState -> callState) : M unit :=
  fun s => Val tt (set_state f s).

Definition panic {A} : M A := fun s => Panic s.

Declare Scope go_scope.
Delimit Scope go_scope with go.
Notation "x <- m ;; k" := (bind m (fun x => k))
  (at level 61, m at next level, right associativity) : go_scope.
Notation "m ;; k" := (bind m (fun _ => k))
  (at level 61, right associativity) : go_scope.
Local Open Scope go_scope.

Section WithEnv.

Variable env : Env.

(** [engagement.Send(msg)]: the attempt is logged with its outcome. *)
Definition Send (msg : RunnerMsg) : M go_error :=
  fun s =>
    let r := send_result env (length (engagement s)) in
    Val r (set_engagement (engagement s ++ [(msg, r)]) s).

(** [time.Now()]. *)
Definition Now : M Z :=
  fun s => Val (time_Now env (clock s)) (set_clock (S (clock s)) s).

(** *** writerFacade *)

(** The two nested [range] loops of [commitHeaders]. *)
Definition range_headers (h : http_Header) : list HttpHeader :=
  flat_map (fun kv => map (fun v => {| Key := fst kv; Value := v |})
                          (snd kv)) h.

Definition Header : M http_Header := gets (fun st => outHeaders (w st)).

Definition commitHeaders : M unit :=
  hw <- gets (fun st => headerWritten (w st)) ;;
  if hw then ret tt
  else
    modify (set_w (set_headerWritten true)) ;;
    f <- gets w ;;
    err <- Send (RunnerMsg_ResultStart (range_headers (outHeaders f))
                                       (int32 (outStatus f))) ;;
    match err with
    | Some _ => ret tt
    | None => ret tt
    end.

Definition WriteHeader (status : Z) : M unit :=
  modify (set_w (set_outStatus status)) ;;
  commitHeaders.

Definition Write (data : list byte) : M (Z * go_error) :=
  commitHeaders ;;
  err <- Send (RunnerMsg_Data data false) ;;
  match err with
  | Some e => ret (0%Z, Some (Errorf "Error sending data: " e))
  | None => ret (Z.of_nat (length data), None)
  end.

Definition Close : M go_error :=
  commitHeaders ;;
  err <- Send (RunnerMsg_Data [] true) ;;
  match err with
  | Some e => ret (Some (Errorf "Error sending close frame: " e))
  | None => ret None
  end.

(** *** The executor goroutine of [handleData]

    The body of the [go func()] after [pr.a.Submit(state.c)] has
    returned [err]. *)
Definition goroutine_after_Submit (err : go_error) : M unit :=
  match err with
  | Some e =>
      se <- gets streamError ;;
      match se with
      | None =>
          err2 <- Send (RunnerMsg_Finished false (Sprintf_v e)) ;;
          match err2 with
          | Some e2 => modify (set_streamError (Some e2))
          | None => ret tt
          end
      | Some _ => ret tt
      end
  | None =>
      err <- Close ;;
      match err with
      | Some e =>
          se <- gets streamError ;;
          match se with
          | None =>
              err2 <- Send (RunnerMsg_Finished false (Sprintf_v e)) ;;
              match err2 with
              | Some e2 => modify (set_streamError (Some e2))
              | None => ret tt
              end
          | Some _ => ret tt
          end
      | None =>
          se <- gets streamError ;;
          match se with
          | None =>
              oc <- gets c ;;
              match oc with
              | None => panic
              | Some cl =>
                  err2 <- Send (RunnerMsg_Finished true (ID (Model cl))) ;;
                  match err2 with
                  | Some e2 => modify (set_streamError (Some e2))
                  | None => ret tt
                  end
              end
          | Some _ => ret tt
          end
      end
  end.

(** [state.input.Write(data)] and [state.input.Close()]: a method call on
    a nil interface panics. *)
Definition input_Write (data : list byte) : M (Z * go_error) :=
  oi <- gets input ;;
  match oi with
  | None => panic
  | Some p =>
      modify (set_input (Some (fst (PipeWriter_Write p data)))) ;;
      ret (snd (PipeWriter_Write p data))
  end.

Definition input_Close : M unit :=
  oi <- gets input ;;
  match oi with
  | None => panic
  | Some p => modify (set_input (Some (PipeWriter_Close p)))
  end.

(** [go func() { ... }()]. *)
Definition go_executor : M unit :=
  fun s => Val tt (set_executor InSubmit s).

Definition handleData (data : list byte) (eof : bool) : M go_error :=
  st <- gets started ;;
  (if negb st then
     modify (set_started true) ;;
     go_executor
   else ret tt) ;;
  let after_write : M go_error :=
    (if eof then input_Close else ret tt) ;;
    ret None in
  if (0 <? length data)%nat then
    r <- input_Write data ;;
    match snd r with
    | Some e => ret (Some e)
    | None => after_write
    end
  else after_write.

Definition handleTryCall (ModelsCallJson : string) : M go_error :=
  match json_Unmarshal env ModelsCallJson with
  | inr e => ret (Some e)
  | inl cm =>
      t <- Now ;;
      modify (set_receivedTime t) ;;
      n <- (fun s => Val (clock s) s) ;;
      match GetCall env n cm with
      | inr e => ret (Some e)
      | inl agent_call =>
          modify (set_c (Some agent_call)) ;;
          modify (set_input (Some new_Pipe)) ;;
          t' <- Now ;;
          modify (set_allocatedTime t') ;;
          ret None
      end
  end.

(** One turn of the [for] loop of [Engage], given what [Recv] returned:
    [Some e] is [return e], [None] goes round again. *)
Definition Engage_iteration (r : RecvResult) : M (option go_error) :=
  match r with
  | Recv_err e =>
      modify (set_streamError (Some e)) ;;
      oc <- gets c ;;
      (match oc with
       | Some cl =>
           match reservedSlot cl with
           | Some _ => input_Close
           | None => ret tt
           end
       | None => ret tt
       end) ;;
      ret (Some (Some e))
  | Recv_msg (ClientMsg_Try json) =>
      err <- handleTryCall json ;;
      match err with
      | Some e =>
          se <- gets streamError ;;
          (match se with
           | None =>
               err2 <- Send (RunnerMsg_Acknowledged false (Sprintf_v e)
                                                    EmptyString) ;;
               match err2 with
               | Some e2 => modify (set_streamError (Some e2))
               | None => ret tt
               end
           | Some _ => ret tt
           end) ;;
          ret (Some (Some e))
      | None =>
          se <- gets streamError ;;
          match se with
          | None =>
              oc <- gets c ;;
              match oc with
              | None => panic
              | Some cl =>
                  st <- gets (fun st => st) ;;
                  err2 <- Send (RunnerMsg_Acknowledged true (ID (Model cl))
                                  (Duration_String env
                                     (allocatedTime st - receivedTime st))) ;;
                  match err2 with
                  | Some e2 =>
                      modify (set_streamError (Some e2)) ;;
                      ret (Some (Some e2))
                  | None => ret None
                  end
              end
          | Some _ => ret None
          end
      end
  | Recv_msg (ClientMsg_Data data eof) =>
      err <- handleData data eof ;;
      match err with
      | Some e => ret (Some (Some e))
      | None => ret None
      end
  | Recv_msg ClientMsg_other =>
      ret (Some (Some
        "Unrecognized or unhandled message in receive loop"%string))
  end.

(** The session [Engage] starts with. *)
Definition Engage_init : Session :=
  {| state := {| c := None;
                 w := {| outHeaders := []; outStatus := 200;
                         headerWritten := false |};
                 input := None;
                 started := false;
                 receivedTime := 0;
                 allocatedTime := 0;
                 streamError := None |};
     engagement := [];
     clock := 0;
     executor := NotLaunched;
     receive_loop := Receiving;
     panicked := false |}.

(** ** The two activities, interleaved

    What the engine does with the [http.ResponseWriter] it was given
    while [Submit] runs. *)
Inductive EngineOp :=
| OpHeader (f : http_Header -> http_Header)
| OpWriteHeader (status : Z)
| OpWrite (data : list byte).

Definition engine_op (op : EngineOp) : M unit :=
  match op with
  | OpHeader f =>
      h <- Header ;;
      modify (set_w (set_outHeaders (f h)))
  | OpWriteHeader status => WriteHeader status
  | OpWrite data => Write data ;; ret tt
  end.

(** An event is one turn of one activity: the receive loop gets a result
    from [Recv] and handles it; the engine, inside [Submit], uses the
    writer; [Submit] returns and the goroutine runs to its end.  The code
    takes no lock, so nothing makes a turn atomic in Go; here a turn runs
    as a whole and the two activities interleave turn by turn, which is the
    coarsest interleaving the code allows. *)
Inductive Event :=
| EvRecv (r : RecvResult)
| EvEngine (op : EngineOp)
| EvSubmitReturns (err : go_error).

(** An event of an activity that is not running, or after a panic, does
    nothing. *)
Definition step (s : Session) (ev : Event) : Session :=
  if panicked s then s
  else
    match ev with
    | EvRecv r =>
        match receive_loop s with
        | Receiving =>
            match Engage_iteration r s with
            | Val None s' => s'
            | Val (Some e) s' => set_receive_loop (Returned e) s'
            | Panic s' => set_panicked s'
            end
        | Returned _ => s
        end
    | EvEngine op =>
        match executor s with
        | InSubmit =>
            match engine_op op s with
            | Val _ s' => s'
            | Panic s' => set_panicked s'
            end
        | _ => s
        end
    | EvSubmitReturns err =>
        match executor s with
        | InSubmit =>
            match goroutine_after_Submit err s with
            | Val _ s' => set_executor Done s'
            | Panic s' => set_panicked s'
            end
        | _ => s
        end
    end.

Definition run (s : Session) (sched : list Event) : Session :=
  fold_left step sched s.

(** [Engage] against a stream that delivers [rs] and nothing else runs
    beside it. *)
Definition Engage (rs : list RecvResult) : Session :=
  run Engage_init (map EvRecv rs).

End WithEnv.

(** ** Reading the log *)

Definition frames (s : Session) : list RunnerMsg := map fst (engagement s).

Definition is_Acknowledged (m : RunnerMsg) : bool :=
  match m with RunnerMsg_Acknowledged _ _ _ => true | _ => false end.

Definition is_ResultStart (m : RunnerMsg) : bool :=
  match m with RunnerMsg_ResultStart _ _ => true | _ => false end.

Definition is_Data (m : RunnerMsg) : bool :=
  match m with RunnerMsg_Data _ _ => true | _ => false end.

Definition is_Finished (m : RunnerMsg) : bool :=
  match m with RunnerMsg_Finished _ _ => true | _ => false end.

Definition payload (m : RunnerMsg) : list byte :=
  match m with RunnerMsg_Data d _ => d | _ => [] end.

Definition count (p : RunnerMsg -> bool) (l : list RunnerMsg) : nat :=
  length (filter p l).
Arguments count p l : simpl never.

(** Frames whose send the code puts under [if state.streamError == nil]. *)
Definition is_guarded (m : RunnerMsg) : bool :=
  is_Acknowledged m || is_Finished m.

(** The attempts logged between session [s] and a later session [s']. *)
Definition sent_since (s s' : Session) : list (RunnerMsg * go_error) :=
  skipn (length (engagement s)) (engagement s').

Definition data_frames (l : list (RunnerMsg * go_error)) : list RunnerMsg :=
  filter is_Data (map fst l).

(** No [Data] frame before the first [ResultStart]; [seen] says whether a
    [ResultStart] came earlier. *)
Fixpoint headers_first (seen : bool) (l : list RunnerMsg) : bool :=
  match l with
  | [] => true
  | m :: l' =>
      if is_ResultStart m then headers_first true l'
      else if is_Data m then seen && headers_first seen l'
      else headers_first seen l'
  end.

(** The engine writes the chunks [ds] one after the other. *)
Fixpoint Write_all (env : Env) (ds : list (list byte)) : M unit :=
  match ds with
  | [] => ret tt
  | d :: ds' => Write env d ;; Write_all env ds'
  end.

Definition is_Try (ev : Event) : bool :=
  match ev with
  | EvRecv (Recv_msg (ClientMsg_Try _)) => true
  | _ => false
  end.

End PureRunner.

Import LbPool.
Import PureRunner.
Local Open Scope go_scope.

(** * Invariants of a session *)

(** The header frame: sent iff [headerWritten], once, before any data. *)
Definition headers_inv (s : Session) : Prop :=
  headers_first false (frames s) = true
  /\ existsb is_ResultStart (frames s) = headerWritten (w (state s))
  /\ count is_ResultStart (frames s)
     = (if headerWritten (w (state s)) then 1 else 0).

(** The goroutine is launched once, under [started], and sends at most
    one [Finished], when it ends. *)
Definition executor_inv (s : Session) : Prop :=
  (started (state s) = false -> executor s = NotLaunched)
  /\ count is_Finished (frames s)
     <= (match executor s with Done => 1 | _ => 0 end).

(** An allocated call has its input pipe. *)
Definition input_inv (s : Session) : Prop :=
  c (state s) <> None -> input (state s) <> None.

(** The receive loop never records a nil return. *)
Definition loop_inv (s : Session) : Prop :=
  receive_loop s = Receiving \/ exists e, receive_loop s = Returned (Some e).

(** * Sample environments and schedules *)

(** Every send succeeds; the descriptor "bad" does not parse, the call
    "full" is not admitted, the call "noslot" is admitted without a
    reserved slot, any other call with one. *)
Definition env_ok : Env :=
  {| send_result := fun _ => None;
     json_Unmarshal := fun j =>
       if String.eqb j "bad" then inr "invalid character"%string
       else inl {| ID := j |};
     GetCall := fun _ cm =>
       if String.eqb (ID cm) "full" then inr "no capacity"%string
       else inl {| Model := cm;
                   reservedSlot := if String.eqb (ID cm) "noslot" then None
                                   else Some tt |};
     time_Now := fun n => Z.of_nat n;
     Duration_String := fun _ => "1ns"%string |}.

(** As [env_ok], but every send after the first fails. *)
Definition env_broken : Env :=
  {| send_result := fun n =>
       match n with
       | O => None
       | S _ => Some "transport is closing"%string
       end;
     json_Unmarshal := json_Unmarshal env_ok;
     GetCall := GetCall env_ok;
     time_Now := time_Now env_ok;
     Duration_String := Duration_String env_ok |}.

Definition hello : list byte := [x68; x65; x6c; x6c; x6f].

Definition ten_bytes : list byte :=
  [x30; x31; x32; x33; x34; x35; x36; x37; x38; x39].

(** A call is submitted and its first, non-final chunk arrives. *)
Definition sched_streaming (id : string) : list Event :=
  [EvRecv (Recv_msg (ClientMsg_Try id));
   EvRecv (Recv_msg (ClientMsg_Data hello false))].

(** The engine writes a status and ten bytes of body. *)
Definition sched_partial_output : list Event :=
  sched_streaming "c1"
  ++ [EvEngine (OpWriteHeader 200); EvEngine (OpWrite ten_bytes)].

Definition count_Try (sched : list Event) : nat :=
  length (filter is_Try sched).

(** * pure_runner.go: the runner itself *)

Module Server.

(** What [creds] reads from disk: the key pair, the authority's file, and
    whether its contents parse as PEM certificates into a pool. *)
Record Disk (Certificate CertPool : Type) := {
  LoadX509KeyPair : string -> string -> Certificate + error;
  ReadFile : string -> list byte + error;
  NewCertPool : CertPool;
  AppendCertsFromPEM : CertPool -> list byte -> CertPool * bool
}.
Arguments LoadX509KeyPair {Certificate CertPool} d certFile keyFile.
Arguments ReadFile {Certificate CertPool} d name.
Arguments NewCertPool {Certificate CertPool} d.
Arguments AppendCertsFromPEM {Certificate CertPool} d pool pem.

(** The fields of [tls.Config] that [creds] sets; [ClientAuth] is one of the
    two policies this file can end up with. *)
Inductive ClientAuthType := NoClientCert | RequireAndVerifyClientCert.

Record tls_Config (Certificate CertPool : Type) := {
  ClientAuth : ClientAuthType;
  Certificates : list Certificate;
  ClientCAs : CertPool
}.
Arguments ClientAuth {Certificate CertPool} t.
Arguments Certificates {Certificate CertPool} t.
Arguments ClientCAs {Certificate CertPool} t.

(** [grpc.NewServer(grpc.Creds(creds))] or [grpc.NewServer()]: a server is
    known by the transport credentials it was given, if any. *)
Record grpc_Server (Certificate CertPool : Type) := {
  server_creds : option (tls_Config Certificate CertPool)
}.
Arguments server_creds {Certificate CertPool} g.

Record pureRunner (Agent Certificate CertPool : Type) := {
  gRPCServer : grpc_Server Certificate CertPool;
  listen : string;
  a : Agent;
  inflight : Z
}.
Arguments gRPCServer {Agent Certificate CertPool} p.
Arguments listen {Agent Certificate CertPool} p.
Arguments a {Agent Certificate CertPool} p.
Arguments inflight {Agent Certificate CertPool} p.

Section WithDisk.

Context {Agent Certificate CertPool : Type}.
Variable disk : Disk Certificate CertPool.

Definition creds (cert key ca : string)
  : tls_Config Certificate CertPool + error :=
  match LoadX509KeyPair disk cert key with
  | inr err => inr (Errorf "Could not load server key pair: " err)
  | inl certificate =>
      match ReadFile disk ca with
      | inr err => inr (Errorf "Could not read ca certificate: " err)
      | inl authority =>
          let (certPool, ok) :=
            AppendCertsFromPEM disk (NewCertPool disk) authority in
          if negb ok then inr "Failed to append client certs"
          else inl {| ClientAuth := RequireAndVerifyClientCert;
                      Certificates := [certificate];
                      ClientCAs := certPool |}
      end
  end.

Definition createPureRunner (addr : string) (ag : Agent)
    (cr : option (tls_Config Certificate CertPool))
  : option (pureRunner Agent Certificate CertPool) * go_error :=
  let srv :=
    match cr with
    | Some t => {| server_creds := Some t |}
    | None => {| server_creds := None |}
    end in
  (Some {| gRPCServer := srv; listen := addr; a := ag; inflight := 0 |},
   None).

Definition CreatePureRunner (addr : string) (ag : Agent)
    (cert key ca : string)
  : option (pureRunner Agent Certificate CertPool) * go_error :=
  if negb (String.eqb cert "") && negb (String.eqb key "")
     && negb (String.eqb ca "")
  then
    match creds cert key ca with
    | inr err => (None, Some err)
    | inl t => createPureRunner addr ag (Some t)
    end
  else createPureRunner addr ag None.

(** [atomic.AddInt32(&pr.inflight, delta)]. *)
Definition atomic_AddInt32 (delta : Z)
    (pr : pureRunner Agent Certificate CertPool)
  : pureRunner Agent Certificate CertPool :=
  {| gRPCServer := gRPCServer pr; listen := listen pr; a := a pr;
     inflight := int32 (inflight pr + delta) |}.

(** The first statement of [Engage], and the call it defers to its
    return. *)
Definition Engage_enter := atomic_AddInt32 1.
Definition Engage_leave := atomic_AddInt32 (-1).

(** [runner.RunnerStatus]. *)
Record RunnerStatus := { Active : Z }.

Definition Status (pr : pureRunner Agent Certificate CertPool)
  : RunnerStatus * go_error :=
  ({| Active := inflight pr |}, None).

(** Engagements beginning and ending on one runner, in the order their
    counter updates take effect. *)
Inductive Tab := Begins | Ends.

Definition tab (pr : pureRunner Agent Certificate CertPool) (t : Tab)
  : pureRunner Agent Certificate CertPool :=
  match t with
  | Begins => Engage_enter pr
  | Ends => Engage_leave pr
  end.

Definition tabs (pr : pureRunner Agent Certificate CertPool)
    (ts : list Tab) : pureRunner Agent Certificate CertPool :=
  fold_left tab ts pr.

Definition net_change (ts : list Tab) : Z :=
  fold_left (fun n t => match t with
                        | Begins => n + 1
                        | Ends => n - 1
                        end)%Z ts 0%Z.

End WithDisk.

End Server.

(** * Schedules *)

(** The engine writes the chunks [ds]; the client sends the chunks [ds],
    none of them the last. *)
Definition writes (ds : list (list byte)) : list Event :=
  map (fun d => EvEngine (OpWrite d)) ds.

Definition chunks (ds : list (list byte)) : list Event :=
  map (fun d => EvRecv (Recv_msg (ClientMsg_Data d false))) ds.

Definition is_WriteHeader (ev : Event) : bool :=
  match ev with
  | EvEngine (OpWriteHeader _) => true
  | _ => false
  end.

Definition status_of (m : RunnerMsg) : option Z :=
  match m with
  | RunnerMsg_ResultStart _ st => Some st
  | _ => None
  end.

(** Every header frame of the log carries status 200. *)
Definition all_status_200 (l : list RunnerMsg) : bool :=
  forallb (fun m => match status_of m with
                    | Some st => (st =? 200)%Z
                    | None => true
                    end) l.

(** A disk holding a key pair and an authority file whose contents are
    accepted; pools are the lists of accepted files. *)
Definition disk_ok : Server.Disk string (list (list byte)) :=
  {| Server.LoadX509KeyPair := fun certFile keyFile =>
       inl (String.append certFile keyFile);
     Server.ReadFile := fun _ => inl hello;
     Server.NewCertPool := [];
     Server.AppendCertsFromPEM := fun pool pem => (pem :: pool, true) |}.

(** Events that close the input pipe when they can: a failed [Recv] and a
    chunk marked as the last. *)
Definition closes_input (ev : Event) : bool :=
  match ev with
  | EvRecv (Recv_err _) => true
  | EvRecv (Recv_msg (ClientMsg_Data _ true)) => true
  | _ => false
  end.

(** * The goroutine's check and its send, apart

    In the source the check [state.streamError == nil] and the [Send] it
    guards are two statements with no lock around them.  The goroutine
    after [Submit] is cut here at that point: up to and including the
    check, and from there on. *)

(** What the goroutine has decided once the check is made. *)
Inductive Pending :=
| NoSend
| SendFailure (details : string)
| SendSuccess.

Definition goroutine_until_guard (env : Env) (err : go_error) : M Pending :=
  match err with
  | Some e =>
      se <- gets streamError ;;
      match se with
      | None => ret (SendFailure (Sprintf_v e))
      | Some _ => ret NoSend
      end
  | None =>
      err <- Close env ;;
      match err with
      | Some e =>
          se <- gets streamError ;;
          match se with
          | None => ret (SendFailure (Sprintf_v e))
          | Some _ => ret NoSend
          end
      | None =>
          se <- gets streamError ;;
          match se with
          | None => ret SendSuccess
          | Some _ => ret NoSend
          end
      end
  end.

Definition goroutine_after_guard (env : Env) (p : Pending) : M unit :=
  match p with
  | NoSend => ret tt
  | SendFailure details =>
      err2 <- Send env (RunnerMsg_Finished false details) ;;
      match err2 with
      | Some e2 => modify (set_streamError (Some e2))
      | None => ret tt
      end
  | SendSuccess =>
      oc <- gets c ;;
      match oc with
      | None => panic
      | Some cl =>
          err2 <- Send env (RunnerMsg_Finished true (ID (Model cl))) ;;
          match err2 with
          | Some e2 => modify (set_streamError (Some e2))
          | None => ret tt
          end
      end
  end.

(** * Proof tools *)

Ltac open_session s :=
  let oc := fresh "oc" in
  let oh := fresh "oh" in
  let os := fresh "os" in
  let hw := fresh "hw" in
  let oi := fresh "oi" in
  let st := fresh "st" in
  let rt := fresh "rt" in
  let alt := fresh "alt" in
  let se := fresh "se" in
  let eng := fresh "eng" in
  let clk := fresh "clk" in
  let ex := fresh "ex" in
  let lp := fresh "lp" in
  let pn := fresh "pn" in
  destruct s as [[oc [oh os hw] oi st rt alt se] eng clk ex lp pn].

Ltac open_event ev :=
  destruct ev as [[? | [? | ? ? |]] | [? | ? | ?] | [? |]].

Ltac unfold_model :=
  unfold step, engine_op, goroutine_after_Submit, Engage_iteration,
    handleTryCall, handleData, go_executor, input_Write, input_Close,
    Close, Write, WriteHeader, commitHeaders, Header, Now, Send,
    bind, ret, gets, modify, panic in *.

Ltac split_match :=
  match goal with
  | |- context [match ?x with _ => _ end] =>
      lazymatch x with
      | context [match _ with _ => _ end] => fail
      | _ => destruct x eqn:?
      end
  end.

Ltac run_model := unfold_model; cbn; repeat (split_match; cbn).

Lemma skipn_length_app {A} (l x : list A) : skipn (length l) (l ++ x) = x.
Proof. induction l; cbn; auto. Qed.

Lemma skipn_length_self {A} (l : list A) : skipn (length l) l = [].
Proof. induction l; cbn; auto. Qed.

Lemma count_app p l l' : count p (l ++ l') = count p l + count p l'.
Proof. unfold count. rewrite filter_app, length_app. reflexivity. Qed.

Lemma headers_first_app l : forall seen l',
  headers_first seen (l ++ l') =
  headers_first seen l && headers_first (seen || existsb is_ResultStart l) l'.
Proof.
  induction l as [| m l IH]; intros seen l'; cbn.
  - now rewrite orb_false_r.
  - destruct (is_ResultStart m); cbn.
    + rewrite IH, orb_true_r. reflexivity.
    + destruct (is_Data m); rewrite IH; [destruct seen |]; reflexivity.
Qed.

Lemma headers_first_sound l1 : forall seen m l2,
  headers_first seen (l1 ++ m :: l2) = true -> is_Data m = true ->
  seen || existsb is_ResultStart l1 = true.
Proof.
  intros seen m l2 H Hm. rewrite headers_first_app in H.
  apply andb_prop in H as [_ H]. cbn in H.
  destruct (is_ResultStart m) eqn:Hr.
  - destruct m; discriminate.
  - rewrite Hm in H. now apply andb_prop in H as [H _].
Qed.

Ltac log_simpl :=
  unfold sent_since, frames, data_frames in *; cbn [engagement] in *; cbn;
  rewrite <- ?app_assoc;
  rewrite ?skipn_length_app, ?skipn_length_self, ?map_app, ?count_app,
    ?filter_app, ?existsb_app, ?headers_first_app;
  cbn.

Ltac use_sends :=
  repeat match goal with
    | H : send_result _ _ = _ |- _ => rewrite H; clear H
    end.

Ltac count_arith := unfold count in *; cbn in *; lia.

(** Every step only appends to the log. *)
Lemma step_appends env s ev :
  engagement (step env s ev) = engagement s ++ sent_since s (step env s ev).
Proof.
  open_session s. open_event ev; run_model; log_simpl;
    rewrite ?app_nil_r; reflexivity.
Qed.

(** * The sentinel runner *)

(** C10: the always-refuse runner.  For every context and call, [TryExec] of
    [NullRunner] returns accepted = false with a nil error; its [Close]
    leaves the runner as it was; its [Address] is the empty string. *)
Theorem NullRunner_refuses_and_never_errors (Ctx Call : Type) :
  (forall (ctx : Ctx) (call : Call),
      LbPool.TryExec LbPool.NullRunner ctx call = (false, None))
  /\ (forall n : LbPool.nullRunner,
      LbPool.Close (Ctx := Ctx) (Call := Call) n = n)
  /\ LbPool.Address (Ctx := Ctx) (Call := Call) LbPool.NullRunner
     = EmptyString.
Proof. repeat split. Qed.

(** * The response adapter *)

Section Adapter.

Variable env : Env.

(** What [commitHeaders] does, by the [headerWritten] flag. *)
Lemma commitHeaders_spec s :
  exists s',
    commitHeaders env s = Val tt s'
    /\ headerWritten (w (state s')) = true
    /\ streamError (state s') = streamError (state s)
    /\ engagement s' = engagement s ++
         (if headerWritten (w (state s)) then []
          else [(RunnerMsg_ResultStart
                   (range_headers (outHeaders (w (state s))))
                   (int32 (outStatus (w (state s)))),
                 send_result env (length (engagement s)))]).
Proof.
  open_session s. run_model; eexists; repeat split; cbn;
    rewrite ?app_nil_r; reflexivity.
Qed.

Lemma Write_log d s :
  exists v s' new,
    Write env d s = Val v s'
    /\ engagement s' = engagement s ++ new
    /\ data_frames new = [RunnerMsg_Data d false].
Proof.
  open_session s. run_model; do 3 eexists; (split; [reflexivity |]);
    cbn; rewrite <- ?app_assoc; split; reflexivity.
Qed.

Lemma Close_log s :
  exists v s' new,
    Close env s = Val v s'
    /\ engagement s' = engagement s ++ new
    /\ data_frames new = [RunnerMsg_Data [] true].
Proof.
  open_session s. run_model; do 3 eexists; (split; [reflexivity |]);
    cbn; rewrite <- ?app_assoc; split; reflexivity.
Qed.

Lemma Write_all_Close_log ds : forall s,
  exists v s' new,
    (Write_all env ds ;; Close env) s = Val v s'
    /\ engagement s' = engagement s ++ new
    /\ data_frames new =
       map (fun d => RunnerMsg_Data d false) ds ++ [RunnerMsg_Data [] true].
Proof.
  induction ds as [| d ds IH]; intros s.
  - cbn [Write_all]. unfold bind at 1, ret. apply Close_log.
  - destruct (Write_log d s) as (v1 & s1 & new1 & Hw & He1 & Hd1).
    destruct (IH s1) as (v & s' & new & Hr & He & Hd).
    exists v, s', (new1 ++ new). cbn [Write_all]. split; [| split].
    + unfold bind in *. rewrite Hw. exact Hr.
    + rewrite He, He1, app_assoc. reflexivity.
    + unfold data_frames in *. rewrite map_app, filter_app, Hd1, Hd.
      reflexivity.
Qed.

Lemma payload_of_writes ds :
  concat (map payload
            (map (fun d => RunnerMsg_Data d false) ds
             ++ [RunnerMsg_Data [] true])) = concat ds.
Proof.
  induction ds as [| d ds IH]; cbn; [reflexivity |].
  cbn in IH. rewrite IH. reflexivity.
Qed.

End Adapter.

(** C6: in whatever session it is called and whatever the sends return,
    [Write d] hands the stream one [Data] frame, [d] with Eof = false, and
    [Close] one [Data] frame with empty payload and Eof = true; so writes of
    [ds] followed by [Close] leave exactly the [Data] frames of [ds], in
    order, then the one end-of-stream frame, and their payloads concatenate
    to the bytes written. *)
Theorem adapter_data_frames_round_trip (env : Env) :
  (forall d s, exists v s',
      Write env d s = Val v s'
      /\ data_frames (sent_since s s') = [RunnerMsg_Data d false])
  /\ (forall s, exists v s',
      Close env s = Val v s'
      /\ data_frames (sent_since s s') = [RunnerMsg_Data [] true])
  /\ (forall ds s, exists v s',
      (Write_all env ds ;; Close env) s = Val v s'
      /\ data_frames (sent_since s s') =
         map (fun d => RunnerMsg_Data d false) ds ++ [RunnerMsg_Data [] true]
      /\ concat (map payload (data_frames (sent_since s s'))) = concat ds).
Proof.
  split; [| split].
  - intros d s. destruct (Write_log env d s) as (v & s' & new & H & He & Hd).
    exists v, s'. split; [exact H |].
    unfold sent_since. rewrite He, skipn_length_app. exact Hd.
  - intros s. destruct (Close_log env s) as (v & s' & new & H & He & Hd).
    exists v, s'. split; [exact H |].
    unfold sent_since. rewrite He, skipn_length_app. exact Hd.
  - intros ds s.
    destruct (Write_all_Close_log env ds s) as (v & s' & new & H & He & Hd).
    exists v, s'. split; [exact H |].
    unfold sent_since. rewrite He, skipn_length_app, Hd.
    split; [reflexivity | apply payload_of_writes].
Qed.

(** * Steps and invariants *)

Section Invariants.

Variable env : Env.

Lemma run_snoc s sched ev :
  run env s (sched ++ [ev]) = step env (run env s sched) ev.
Proof. unfold run. rewrite fold_left_app. reflexivity. Qed.

(** A property of the initial session that every step keeps holds after
    every schedule. *)
Lemma run_invariant (P : Session -> Prop) :
  P (Engage_init) ->
  (forall s ev, P s -> P (step env s ev)) ->
  forall sched, P (run env Engage_init sched).
Proof.
  intros H0 Hstep sched. induction sched as [| ev sched IH] using rev_ind.
  - exact H0.
  - rewrite run_snoc. apply Hstep, IH.
Qed.

Lemma headers_inv_step s ev : headers_inv s -> headers_inv (step env s ev).
Proof.
  unfold headers_inv. open_session s. cbn. intros (H1 & H2 & H3).
  open_event ev; run_model; log_simpl;
    rewrite ?H1, ?H2; cbn; repeat split; count_arith.
Qed.

Lemma executor_inv_step s ev : executor_inv s -> executor_inv (step env s ev).
Proof.
  unfold executor_inv. open_session s. cbn. intros (H1 & H2).
  destruct st, ex; try (specialize (H1 eq_refl); discriminate);
    open_event ev; run_model; log_simpl;
    (split; [intros; first [reflexivity | discriminate] | count_arith]).
Qed.

(** A step adds at most one [Acknowledged], and only on a [Try]. *)
Lemma Acknowledged_step s ev :
  count is_Acknowledged (frames (step env s ev))
  <= count is_Acknowledged (frames s) + (if is_Try ev then 1 else 0).
Proof.
  open_session s. open_event ev; run_model; log_simpl; count_arith.
Qed.

Lemma input_inv_step s ev : input_inv s -> input_inv (step env s ev).
Proof.
  unfold input_inv. open_session s. cbn. intros H.
  open_event ev; run_model; try assumption; try discriminate;
    intros; try discriminate; try (apply H; congruence).
Qed.

Lemma loop_inv_step s ev : loop_inv s -> loop_inv (step env s ev).
Proof.
  unfold loop_inv. open_session s. cbn. intros H.
  open_event ev; run_model; try assumption; eauto.
Qed.

(** Once set, the fault flag stays set. *)
Lemma streamError_step s ev :
  streamError (state s) <> None ->
  streamError (state (step env s ev)) <> None.
Proof.
  open_session s. cbn. intros H.
  open_event ev; run_model; try assumption; try discriminate;
    try congruence.
Qed.

(** Under a set fault flag no guarded frame is sent. *)
Lemma guarded_step s ev :
  streamError (state s) <> None ->
  forallb (fun a => negb (is_guarded (fst a)))
          (sent_since s (step env s ev)) = true.
Proof.
  open_session s. cbn. intros H.
  open_event ev; run_model; log_simpl; try reflexivity; congruence.
Qed.

(** A guarded send that fails leaves its error in the fault flag. *)
Lemma guarded_failure_step s ev m e :
  In (m, Some e) (sent_since s (step env s ev)) ->
  is_guarded m = true ->
  streamError (state (step env s ev)) = Some e.
Proof.
  open_session s.
  open_event ev; run_model; log_simpl; intros Hin Hg;
    repeat match goal with
      | H : _ \/ _ |- _ => destruct H
      | H : False |- _ => destruct H
      | H : (_, _) = (_, _) |- _ => inversion H; clear H; subst
      end;
    try discriminate; try congruence.
Qed.

End Invariants.

Section Runs.

Variable env : Env.

Lemma run_appends sched : forall s,
  engagement (run env s sched) = engagement s ++ sent_since s (run env s sched).
Proof.
  induction sched as [| ev sched IH] using rev_ind; intros s.
  - unfold sent_since. cbn. now rewrite skipn_length_self, app_nil_r.
  - rewrite run_snoc.
    pose proof (step_appends env (run env s sched) ev) as Hs.
    pose proof (IH s) as Hr.
    remember (sent_since (run env s sched) (step env (run env s sched) ev))
      as a.
    remember (sent_since s (run env s sched)) as b.
    unfold sent_since.
    rewrite Hs, Hr, <- app_assoc, skipn_length_app. reflexivity.
Qed.

Lemma sent_since_snoc s sched ev :
  sent_since s (run env s (sched ++ [ev]))
  = sent_since s (run env s sched)
    ++ sent_since (run env s sched) (step env (run env s sched) ev).
Proof.
  rewrite run_snoc.
  pose proof (step_appends env (run env s sched) ev) as Hs.
  pose proof (run_appends sched s) as Hr.
  remember (sent_since (run env s sched) (step env (run env s sched) ev))
    as a.
  remember (sent_since s (run env s sched)) as b.
  unfold sent_since.
  rewrite Hs, Hr, <- app_assoc, skipn_length_app. reflexivity.
Qed.

Lemma streamError_run sched : forall s,
  streamError (state s) <> None ->
  streamError (state (run env s sched)) <> None.
Proof.
  induction sched as [| ev sched IH] using rev_ind; intros s H.
  - exact H.
  - rewrite run_snoc. apply streamError_step, IH, H.
Qed.

Lemma guarded_run sched : forall s,
  streamError (state s) <> None ->
  forallb (fun a => negb (is_guarded (fst a)))
          (sent_since s (run env s sched)) = true.
Proof.
  induction sched as [| ev sched IH] using rev_ind; intros s H.
  - unfold sent_since. cbn. now rewrite skipn_length_self.
  - rewrite sent_since_snoc, forallb_app, (IH s H). cbn.
    apply guarded_step, streamError_run, H.
Qed.

Lemma returned_step s ev x :
  receive_loop s = Returned x -> receive_loop (step env s ev) = Returned x.
Proof.
  open_session s. cbn. intros ->. open_event ev; run_model; reflexivity.
Qed.

Lemma returned_run sched : forall s x,
  receive_loop s = Returned x -> receive_loop (run env s sched) = Returned x.
Proof.
  induction sched as [| ev sched IH] using rev_ind; intros s x H.
  - exact H.
  - rewrite run_snoc. apply returned_step, IH, H.
Qed.

Lemma returned_ignores_Recv s r x :
  receive_loop s = Returned x -> step env s (EvRecv r) = s.
Proof.
  open_session s. cbn. intros ->. unfold step. cbn. now destruct pn.
Qed.

Lemma Acknowledged_run sched :
  count is_Acknowledged (frames (run env Engage_init sched))
  <= count_Try sched.
Proof.
  induction sched as [| ev sched IH] using rev_ind.
  - cbn. unfold count. cbn. lia.
  - rewrite run_snoc. unfold count_Try in *.
    rewrite filter_app, length_app. cbn [filter].
    pose proof (Acknowledged_step env (run env Engage_init sched) ev) as H.
    destruct (is_Try ev); cbn [length]; lia.
Qed.

(** What a failed [Recv] does to a session whose allocated call has its
    pipe. *)
Lemma Recv_err_step s e :
  input_inv s -> panicked s = false -> receive_loop s = Receiving ->
  let s' := step env s (EvRecv (Recv_err e)) in
  streamError (state s') = Some e
  /\ receive_loop s' = Returned (Some e)
  /\ panicked s' = false
  /\ sent_since s s' = []
  /\ input (state s') =
     match c (state s) with
     | Some cl =>
         match reservedSlot cl with
         | Some _ => option_map PipeWriter_Close (input (state s))
         | None => input (state s)
         end
     | None => input (state s)
     end.
Proof.
  unfold input_inv. open_session s. cbn. intros Hi -> ->.
  run_model; log_simpl; repeat split; try reflexivity.
  all: exfalso; apply Hi; congruence.
Qed.

(** The cut loses nothing: check, then send, is the goroutine. *)
Lemma goroutine_split err s :
  (p <- goroutine_until_guard env err ;; goroutine_after_guard env p) s
  = goroutine_after_Submit env err s.
Proof.
  open_session s. destruct err;
    unfold goroutine_until_guard, goroutine_after_guard;
    run_model; reflexivity.
Qed.

(** After the check nothing looks at the flag again. *)
Lemma after_guard_sends s details :
  exists s',
    goroutine_after_guard env (SendFailure details) s = Val tt s'
    /\ sent_since s s'
       = [(RunnerMsg_Finished false details,
           send_result env (length (engagement s)))].
Proof.
  open_session s. unfold goroutine_after_guard.
  run_model; eexists; (split; [reflexivity |]); log_simpl; use_sends;
    reflexivity.
Qed.

Lemma until_guard_passes s x :
  streamError (state s) = None ->
  goroutine_until_guard env (Some x) s = Val (SendFailure x) s.
Proof.
  open_session s. cbn. intros ->. reflexivity.
Qed.

(** A loop that has returned sends no [Acknowledged]. *)
Lemma no_Acknowledged_step s ev x :
  receive_loop s = Returned x ->
  forallb (fun a => negb (is_Acknowledged (fst a)))
          (sent_since s (step env s ev)) = true.
Proof.
  open_session s. cbn. intros ->.
  open_event ev; run_model; log_simpl; reflexivity.
Qed.

Lemma no_Acknowledged_run sched : forall s x,
  receive_loop s = Returned x ->
  forallb (fun a => negb (is_Acknowledged (fst a)))
          (sent_since s (run env s sched)) = true.
Proof.
  induction sched as [| ev sched IH] using rev_ind; intros s x H.
  - unfold sent_since. cbn. now rewrite skipn_length_self.
  - rewrite sent_since_snoc, forallb_app, (IH s x H). cbn.
    apply (no_Acknowledged_step _ ev x), returned_run, H.
Qed.

(** A turn that begins under a set fault flag sends no [Finished]. *)
Lemma no_Finished_step s ev :
  streamError (state s) <> None ->
  forallb (fun a => negb (is_Finished (fst a)))
          (sent_since s (step env s ev)) = true.
Proof.
  open_session s. cbn. intros H.
  open_event ev; run_model; log_simpl; try reflexivity; congruence.
Qed.

Lemma range_headers_cons k vals h :
  range_headers ((k, vals) :: h)
  = map (fun v => {| Key := k; Value := v |}) vals ++ range_headers h.
Proof. reflexivity. Qed.

Lemma range_headers_In h k v :
  In {| Key := k; Value := v |} (range_headers h)
  <-> exists vals, In (k, vals) h /\ In v vals.
Proof.
  unfold range_headers. rewrite in_flat_map. split.
  - intros ([k' vals] & Hin & Hv). cbn in Hv.
    apply in_map_iff in Hv as (v' & Heq & Hv'). inversion Heq; subst.
    exists vals. split; assumption.
  - intros (vals & Hin & Hv). exists (k, vals). split; [assumption |].
    cbn. apply in_map_iff. exists v. split; [reflexivity | assumption].
Qed.

Lemma range_headers_length h :
  length (range_headers h)
  = fold_right (fun kv n => length (snd kv) + n) 0 h.
Proof.
  induction h as [| [k vals] h IH]; [reflexivity |].
  rewrite range_headers_cons, length_app, length_map, IH. reflexivity.
Qed.

End Runs.

(** * The response adapter in a session *)

(** C7: [commitHeaders] is idempotent.  Its first call in a session sends one
    [ResultStart] frame built from the status and headers held then, and a
    call with [headerWritten] set changes nothing; [Write] and [Close] run it
    before their own send.  So after any schedule the log holds at most one
    [ResultStart], and every [Data] frame comes after it.  The frame's
    header list is the map's, key by key and value by value - one entry for
    every value of every key and no other - and its status code is the
    status held, unchanged when it fits an int32. *)
Theorem commitHeaders_once_and_before_data (env : Env) :
  (forall s,
      (commitHeaders env ;; commitHeaders env) s = commitHeaders env s)
  /\ (forall s, exists s',
      commitHeaders env s = Val tt s'
      /\ sent_since s s' =
         (if headerWritten (w (state s)) then []
          else [(RunnerMsg_ResultStart
                   (range_headers (outHeaders (w (state s))))
                   (int32 (outStatus (w (state s)))),
                 send_result env (length (engagement s)))])
      /\ (if headerWritten (w (state s)) then s' = s
          else headerWritten (w (state s')) = true))
  /\ (forall d s, exists s1 v s',
      commitHeaders env s = Val tt s1
      /\ Write env d s = Val v s'
      /\ sent_since s s' =
         sent_since s s1
         ++ [(RunnerMsg_Data d false, send_result env (length (engagement s1)))])
  /\ (forall s, exists s1 v s',
      commitHeaders env s = Val tt s1
      /\ Close env s = Val v s'
      /\ sent_since s s' =
         sent_since s s1
         ++ [(RunnerMsg_Data [] true, send_result env (length (engagement s1)))])
  /\ (forall sched,
      count is_ResultStart (frames (run env Engage_init sched)) <= 1
      /\ forall l1 m l2,
          frames (run env Engage_init sched) = l1 ++ m :: l2 ->
          is_Data m = true ->
          existsb is_ResultStart l1 = true)
  /\ range_headers [] = []
  /\ (forall k vals h,
      range_headers ((k, vals) :: h)
      = map (fun v => {| Key := k; Value := v |}) vals ++ range_headers h)
  /\ (forall h k v,
      In {| Key := k; Value := v |} (range_headers h)
      <-> exists vals, In (k, vals) h /\ In v vals)
  /\ (forall h,
      length (range_headers h)
      = fold_right (fun kv n => length (snd kv) + n) 0 h)
  /\ (forall status,
      (- 2 ^ 31 <= status < 2 ^ 31)%Z -> int32 status = status).
Proof.
  split; [| split; [| split; [| split; [| split]]]].
  - intros s. open_session s. run_model; reflexivity.
  - intros s. open_session s. run_model; eexists; (split; [reflexivity |]);
      log_simpl; split; reflexivity.
  - intros d s. open_session s.
    run_model; do 3 eexists; (split; [reflexivity |]);
      (split; [reflexivity |]); log_simpl; use_sends; reflexivity.
  - intros s. open_session s.
    run_model; do 3 eexists; (split; [reflexivity |]);
      (split; [reflexivity |]); log_simpl; use_sends; reflexivity.
  - intros sched.
    assert (Hinv : headers_inv (run env Engage_init sched)).
    { apply run_invariant.
      - repeat split.
      - intros s ev. apply headers_inv_step. }
    destruct Hinv as (H1 & _ & H3). split.
    + rewrite H3. destruct (headerWritten _); lia.
    + intros l1 m l2 Heq Hm. rewrite Heq in H1.
      apply (headers_first_sound l1 false m l2 H1 Hm).
  - split; [reflexivity |]. split; [apply range_headers_cons |].
    split; [apply range_headers_In |]. split; [apply range_headers_length |].
    intros status H. unfold int32. rewrite Z.mod_small; lia.
Qed.

(** * The receive loop *)

(** C9: [Engage] never returns nil.  No turn of the receive loop returns a
    nil error, whatever [Recv] delivered and in whatever state; so after any
    schedule the loop is still receiving (or the process has panicked) or it
    has returned a non-nil error. *)
Theorem Engage_never_returns_nil (env : Env) :
  (forall r s,
      match Engage_iteration env r s with
      | Val (Some None) _ => False
      | _ => True
      end)
  /\ (forall sched,
      receive_loop (run env Engage_init sched) = Receiving
      \/ exists e, receive_loop (run env Engage_init sched) = Returned (Some e)).
Proof.
  split.
  - intros [e | [json | data eof |]] s; open_session s; run_model; exact I.
  - intros sched. apply (run_invariant env loop_inv).
    + left. reflexivity.
    + intros s ev. apply loop_inv_step.
Qed.

(** A call that completes fully and with success leaves the loop receiving;
    it is the end of the stream, an error of [Recv], that ends [Engage]. *)
Example Engage_successful_call_returns_EOF :
  let sched :=
    [EvRecv (Recv_msg (ClientMsg_Try "c1"));
     EvRecv (Recv_msg (ClientMsg_Data hello true));
     EvEngine (OpWriteHeader 200); EvEngine (OpWrite hello);
     EvSubmitReturns None] in
  frames (run env_ok Engage_init sched) =
    [RunnerMsg_Acknowledged true "c1" "1ns";
     RunnerMsg_ResultStart [] 200;
     RunnerMsg_Data hello false;
     RunnerMsg_Data [] true;
     RunnerMsg_Finished true "c1"]
  /\ receive_loop (run env_ok Engage_init sched) = Receiving
  /\ receive_loop (run env_ok Engage_init (sched ++ [EvRecv (Recv_err "EOF")]))
     = Returned (Some "EOF"%string).
Proof. repeat split. Qed.

(** C8: when handling a [Try] fails, because the descriptor does not parse
    or because [GetCall] refuses the call, the receive loop sends one
    [Acknowledged] with Committed = false and the error text, unless a stream
    fault is recorded, in which case it sends nothing; either way it returns
    that error. *)
Theorem failed_Try_is_refused_and_returned
  (env : Env) (s : Session) (json : string) (e : error) :
  panicked s = false ->
  receive_loop s = Receiving ->
  (json_Unmarshal env json = inr e
   \/ exists cm, json_Unmarshal env json = inl cm
                 /\ GetCall env (S (clock s)) cm = inr e) ->
  let s' := step env s (EvRecv (Recv_msg (ClientMsg_Try json))) in
  receive_loop s' = Returned (Some e)
  /\ panicked s' = false
  /\ sent_since s s' =
     match streamError (state s) with
     | None => [(RunnerMsg_Acknowledged false e EmptyString,
                 send_result env (length (engagement s)))]
     | Some _ => []
     end
  /\ c (state s') = c (state s)
  /\ input (state s') = input (state s).
Proof.
  open_session s. cbn. intros -> -> [Hj | (cm & Hj & Hg)];
    unfold_model; cbn; rewrite Hj; cbn; try rewrite Hg; cbn;
    repeat (split_match; cbn); log_simpl; repeat split.
Qed.

Lemma failed_Try_witness :
  json_Unmarshal env_ok "bad" = inr "invalid character"%string
  /\ frames (step env_ok Engage_init (EvRecv (Recv_msg (ClientMsg_Try "bad"))))
     = [RunnerMsg_Acknowledged false "invalid character" ""]
  /\ receive_loop
       (step env_ok Engage_init (EvRecv (Recv_msg (ClientMsg_Try "bad"))))
     = Returned (Some "invalid character"%string).
Proof.
  pose proof (failed_Try_is_refused_and_returned env_ok Engage_init "bad"
                "invalid character" eq_refl eq_refl (or_introl eq_refl)) as H.
  cbv zeta in H. destruct H as (Hl & _ & Hs & _).
  split; [reflexivity | split; [| exact Hl]].
  unfold frames. rewrite (step_appends env_ok), Hs. reflexivity.
Defined.

(** C5, as the code has it: when [Recv] fails, the receive loop records the
    error as [streamError], closes the input pipe when a call is allocated
    and holds a reserved slot, sends nothing and returns the error.  The
    loop then takes no further turn, so no [Acknowledged] frame is attempted
    again.  The executor is not stopped.  A completion that begins after the
    fault finds the flag set and sends no [Finished]; but a goroutine that
    made its check of the flag before the fault sends its [Finished] after
    it, for nothing joins the check to the send. *)
Theorem Recv_error_poisons_the_session
  (env : Env) (sched : list Event) (e : error) :
  let s := run env Engage_init sched in
  panicked s = false ->
  receive_loop s = Receiving ->
  let s' := step env s (EvRecv (Recv_err e)) in
  streamError (state s') = Some e
  /\ receive_loop s' = Returned (Some e)
  /\ panicked s' = false
  /\ sent_since s s' = []
  /\ input (state s') =
     match c (state s) with
     | Some cl =>
         match reservedSlot cl with
         | Some _ => option_map PipeWriter_Close (input (state s))
         | None => input (state s)
         end
     | None => input (state s)
     end
  /\ (forall later,
      forallb (fun a => negb (is_Acknowledged (fst a)))
              (sent_since s' (run env s' later)) = true
      /\ forall r, step env (run env s' later) (EvRecv r) = run env s' later)
  /\ (forall later res,
      let t := run env s' later in
      forallb (fun a => negb (is_Finished (fst a)))
              (sent_since t (step env t (EvSubmitReturns res))) = true)
  /\ (forall x,
      executor s = InSubmit ->
      streamError (state s) = None ->
      goroutine_until_guard env (Some x) s = Val (SendFailure x) s
      /\ exists s'',
          goroutine_after_guard env (SendFailure x) s' = Val tt s''
          /\ sent_since s' s''
             = [(RunnerMsg_Finished false x,
                 send_result env (length (engagement s')))]).
Proof.
  intros s Hp Hl s'.
  assert (Hi : input_inv s).
  { apply run_invariant.
    - intros H. now contradiction H.
    - intros s0 ev. apply input_inv_step. }
  destruct (Recv_err_step env s e Hi Hp Hl) as (H1 & H2 & H3 & H4 & H5).
  fold s' in H1, H2, H3, H4, H5.
  repeat (split; [assumption |]).
  split; [| split].
  - intros later. split.
    + apply (no_Acknowledged_run env later s' (Some e)), H2.
    + intros r. apply (returned_ignores_Recv env _ r (Some e)).
      apply returned_run, H2.
  - intros later res t. apply no_Finished_step. subst t.
    apply streamError_run. rewrite H1. discriminate.
  - intros x _ Hse. split.
    + apply until_guard_passes, Hse.
    + apply after_guard_sends.
Qed.

Lemma Recv_error_witness :
  let s := run env_ok Engage_init (sched_streaming "c1") in
  panicked s = false
  /\ receive_loop s = Receiving
  /\ streamError (state (step env_ok s (EvRecv (Recv_err "EOF")))) = Some "EOF"
  /\ option_map closed (input (state s)) = Some false
  /\ option_map closed
       (input (state (step env_ok s (EvRecv (Recv_err "EOF"))))) = Some true.
Proof.
  cbv zeta.
  pose proof (Recv_error_poisons_the_session env_ok (sched_streaming "c1")
                "EOF" eq_refl eq_refl) as H.
  cbv zeta in H. destruct H as (H1 & _ & _ & _ & H5 & _).
  split; [reflexivity | split; [reflexivity | split; [exact H1 |]]].
  split; [reflexivity |]. rewrite H5. reflexivity.
Defined.

(** C5 as stated fails twice over.  A call admitted without a reserved slot
    keeps its input pipe open when [Recv] fails; and after the fault is
    recorded the executor still closes the adapter, which sends the header
    and end-of-stream frames. *)
Lemma Recv_error_counterexample :
  let s := run env_ok Engage_init (sched_streaming "noslot") in
  let s' := step env_ok s (EvRecv (Recv_err "EOF")) in
  (exists cl, c (state s) = Some cl)
  /\ streamError (state s') = Some "EOF"
  /\ option_map closed (input (state s')) = Some false
  /\ sent_since s' (step env_ok s' (EvSubmitReturns None))
     = [(RunnerMsg_ResultStart [] 200, None); (RunnerMsg_Data [] true, None)].
Proof. cbv zeta. split; [eexists; reflexivity | repeat split]. Qed.

(** * Sends and the fault flag *)

(** C1, as the code has it: there is no lock.  In a turn of either activity
    an [Acknowledged] or [Finished] frame is attempted only if [streamError]
    was nil when the turn began, at most one such frame per turn, and when
    that send fails its error becomes [streamError].  The adapter's sends
    neither consult nor change the flag: a [Write] by the engine hands its
    [Data] frame to the stream whatever [streamError] holds. *)
Theorem guarded_sends_check_the_fault_flag
  (env : Env) (s : Session) (ev : Event) :
  let s' := step env s ev in
  engagement s' = engagement s ++ sent_since s s'
  /\ (forall m r, In (m, r) (sent_since s s') -> is_guarded m = true ->
      streamError (state s) = None)
  /\ (forall m e, In (m, Some e) (sent_since s s') -> is_guarded m = true ->
      streamError (state s') = Some e)
  /\ count is_guarded (map fst (sent_since s s')) <= 1
  /\ (forall op, ev = EvEngine op ->
      streamError (state s') = streamError (state s))
  /\ (forall d, ev = EvEngine (OpWrite d) ->
      panicked s = false -> executor s = InSubmit ->
      data_frames (sent_since s s') = [RunnerMsg_Data d false]).
Proof.
  intros s'. split; [apply step_appends |]. split; [| split; [| split]].
  - intros m r Hin Hg. destruct (streamError (state s)) eqn:Hse; [| reflexivity].
    exfalso.
    assert (Hne : streamError (state s) <> None) by (rewrite Hse; discriminate).
    pose proof (guarded_step env s ev Hne) as Hall.
    rewrite forallb_forall in Hall. specialize (Hall _ Hin). cbn in Hall.
    rewrite Hg in Hall. discriminate.
  - intros m e. apply guarded_failure_step.
  - subst s'. open_session s. open_event ev; run_model; log_simpl; count_arith.
  - split.
    + intros op ->. subst s'. open_session s. destruct op; run_model; reflexivity.
    + intros d ->. subst s'. open_session s. cbn. intros -> ->.
      run_model; log_simpl; reflexivity.
Qed.

(** C1 as stated fails: with the fault flag set by a failed [Recv], the
    executor's [Close] still sends the header frame and the end-of-stream
    frame; and a failed adapter send leaves the flag nil. *)
Lemma send_after_fault_counterexample :
  let s := run env_ok Engage_init
             (sched_streaming "c1" ++ [EvRecv (Recv_err "EOF")]) in
  let t := run env_broken Engage_init (sched_streaming "c1") in
  streamError (state s) = Some "EOF"
  /\ sent_since s (step env_ok s (EvSubmitReturns None))
     = [(RunnerMsg_ResultStart [] 200, None); (RunnerMsg_Data [] true, None)]
  /\ sent_since t (step env_broken t (EvEngine (OpWrite hello)))
     = [(RunnerMsg_ResultStart [] 200, Some "transport is closing");
        (RunnerMsg_Data hello false, Some "transport is closing")]
  /\ streamError (state (step env_broken t (EvEngine (OpWrite hello)))) = None.
Proof. cbv zeta. repeat split. Qed.

(** * Submissions and completion *)

(** C2, as the code has it: after any schedule the log holds at most one
    [Finished] frame and at most one [Acknowledged] frame per [Try] received.
    The loop keeps no record of an earlier [Try]: one that parses and is
    admitted replaces the call and the input pipe, whatever call the session
    held before.  With no stream fault recorded it is acknowledged with
    Committed = true, and the loop goes on receiving if that send succeeds;
    if the send fails, its error is recorded as the stream fault and
    returned.  With a stream fault recorded nothing is sent and the loop
    goes on receiving. *)
Theorem one_Finished_and_one_Acknowledged_per_Try (env : Env) :
  (forall sched,
      count is_Finished (frames (run env Engage_init sched)) <= 1
      /\ count is_Acknowledged (frames (run env Engage_init sched))
         <= count_Try sched)
  /\ (forall s json cm cl,
      panicked s = false ->
      receive_loop s = Receiving ->
      json_Unmarshal env json = inl cm ->
      GetCall env (S (clock s)) cm = inl cl ->
      let s' := step env s (EvRecv (Recv_msg (ClientMsg_Try json))) in
      c (state s') = Some cl
      /\ input (state s') = Some new_Pipe
      /\ panicked s' = false
      /\ match streamError (state s) with
         | None =>
             sent_since s s' =
               [(RunnerMsg_Acknowledged true (ID (Model cl))
                   (Duration_String env
                      (time_Now env (S (clock s)) - time_Now env (clock s))),
                 send_result env (length (engagement s)))]
             /\ match send_result env (length (engagement s)) with
                | None =>
                    receive_loop s' = Receiving
                    /\ streamError (state s') = None
                | Some e2 =>
                    receive_loop s' = Returned (Some e2)
                    /\ streamError (state s') = Some e2
                end
         | Some e0 =>
             sent_since s s' = []
             /\ receive_loop s' = Receiving
             /\ streamError (state s') = Some e0
         end).
Proof.
  split.
  - intros sched. split; [| apply Acknowledged_run].
    assert (Hinv : executor_inv (run env Engage_init sched)).
    { apply run_invariant.
      - split; [reflexivity | cbn; unfold count; cbn; lia].
      - intros s ev. apply executor_inv_step. }
    destruct Hinv as (_ & H). destruct (executor _); lia.
  - intros s json cm cl. open_session s. cbn. intros -> -> Hj Hg.
    unfold_model; cbn. rewrite Hj; cbn. rewrite Hg; cbn.
    destruct se as [e0 |]; cbn.
    + log_simpl. repeat split.
    + destruct (send_result env (length eng)) as [e2 |] eqn:Hs; cbn;
        log_simpl; repeat split.
Qed.

(** C2 as stated fails: a second [Try] after a successful [Acknowledged] is
    acknowledged again, and the loop goes on receiving. *)
Lemma double_submit_counterexample :
  let s := Engage env_ok [Recv_msg (ClientMsg_Try "c1");
                          Recv_msg (ClientMsg_Try "c2")] in
  frames s = [RunnerMsg_Acknowledged true "c1" "1ns";
              RunnerMsg_Acknowledged true "c2" "1ns"]
  /\ count is_Acknowledged (frames s) = 2
  /\ receive_loop s = Receiving
  /\ panicked s = false.
Proof. cbv zeta. repeat split. Qed.

(** C3, as the code has it.  When [Submit] returns an error the goroutine
    leaves the adapter alone and sends one [Finished] with Success = false
    and the error text, or nothing when a stream fault is recorded.  When
    [Submit] returns nil it closes the adapter first and then sends one
    [Finished], unless a stream fault is recorded: Success = false with the
    error of [Close] when the close failed, Success = true with the call's
    ID otherwise. *)
Theorem executor_completion (env : Env) (s : Session) :
  (forall e, exists s',
      goroutine_after_Submit env (Some e) s = Val tt s'
      /\ w (state s') = w (state s)
      /\ sent_since s s' =
         match streamError (state s) with
         | None => [(RunnerMsg_Finished false e,
                     send_result env (length (engagement s)))]
         | Some _ => []
         end)
  /\ (forall s1 ce,
      Close env s = Val (Some ce) s1 ->
      exists s',
        goroutine_after_Submit env None s = Val tt s'
        /\ sent_since s s' =
           sent_since s s1 ++
           match streamError (state s) with
           | None => [(RunnerMsg_Finished false ce,
                       send_result env (length (engagement s1)))]
           | Some _ => []
           end)
  /\ (forall s1 cl,
      Close env s = Val None s1 ->
      c (state s) = Some cl ->
      exists s',
        goroutine_after_Submit env None s = Val tt s'
        /\ sent_since s s' =
           sent_since s s1 ++
           match streamError (state s) with
           | None => [(RunnerMsg_Finished true (ID (Model cl)),
                       send_result env (length (engagement s1)))]
           | Some _ => []
           end).
Proof.
  open_session s. split; [| split].
  - intros e. run_model; eexists; (split; [reflexivity |]);
      log_simpl; split; reflexivity.
  - intros s1 ce. run_model; intros H; inversion H; subst; clear H;
      eexists; (split; [reflexivity |]); cbn; use_sends; log_simpl;
      rewrite ?app_nil_r; reflexivity.
  - intros s1 cl. cbn. intros Hclose ->. revert Hclose.
    run_model; intros H; inversion H; subst; clear H;
      eexists; (split; [reflexivity |]); cbn; use_sends; log_simpl;
      rewrite ?app_nil_r; reflexivity.
Qed.

Lemma executor_completion_witness :
  let s := run env_ok Engage_init sched_partial_output in
  Close env_ok s
  = Val None (set_engagement
                (engagement s ++ [(RunnerMsg_Data [] true, None)]) s)
  /\ exists s',
      goroutine_after_Submit env_ok None s = Val tt s'
      /\ sent_since s s' = [(RunnerMsg_Data [] true, None);
                            (RunnerMsg_Finished true "c1", None)].
Proof.
  cbv zeta.
  assert (Hc : Close env_ok (run env_ok Engage_init sched_partial_output)
               = Val None
                   (set_engagement
                      (engagement (run env_ok Engage_init sched_partial_output)
                       ++ [(RunnerMsg_Data [] true, None)])
                      (run env_ok Engage_init sched_partial_output)))
    by (vm_compute; reflexivity).
  split; [exact Hc |].
  destruct (executor_completion env_ok
              (run env_ok Engage_init sched_partial_output))
    as (_ & _ & H).
  assert (Hcl : c (state (run env_ok Engage_init sched_partial_output))
                = Some {| Model := {| ID := "c1" |}; reservedSlot := Some tt |})
    by (vm_compute; reflexivity).
  destruct (H _ _ Hc Hcl) as (s' & H1 & H2).
  exists s'. split; [exact H1 |]. rewrite H2. vm_compute. reflexivity.
Defined.

(** C3 as stated fails: the engine writes a status and ten bytes, then
    [Submit] fails; the goroutine sends [Finished] straight after the data
    frame, and no end-of-stream frame is ever sent. *)
Lemma failure_after_partial_output_counterexample :
  let s := run env_ok Engage_init
             (sched_partial_output ++ [EvSubmitReturns (Some "boom")]) in
  frames s = [RunnerMsg_Acknowledged true "c1" "1ns";
              RunnerMsg_ResultStart [] 200;
              RunnerMsg_Data ten_bytes false;
              RunnerMsg_Finished false "boom"]
  /\ executor s = Done
  /\ existsb (fun m => match m with
                       | RunnerMsg_Data _ true => true
                       | _ => false
                       end) (frames s) = false.
Proof. cbv zeta. repeat split. Qed.

(** C4, what the code does: a [Data] message on a fresh session launches the
    goroutine with a nil call and then, its payload not being empty or its
    Eof being set, calls a method of the nil input pipe and panics; with an
    empty payload and Eof unset the turn ends without an error and the loop
    goes on. *)
Theorem Data_before_Try_panics (env : Env) :
  (forall b data eof,
      Engage_iteration env (Recv_msg (ClientMsg_Data (b :: data) eof))
                       Engage_init
      = Panic (set_executor InSubmit
                 (set_state (set_started true) Engage_init)))
  /\ Engage_iteration env (Recv_msg (ClientMsg_Data [] true)) Engage_init
     = Panic (set_executor InSubmit
                (set_state (set_started true) Engage_init))
  /\ Engage_iteration env (Recv_msg (ClientMsg_Data [] false)) Engage_init
     = Val None (set_executor InSubmit
                   (set_state (set_started true) Engage_init))
  /\ (forall b data eof,
      panicked (Engage env [Recv_msg (ClientMsg_Data (b :: data) eof)]) = true
      /\ receive_loop (Engage env [Recv_msg (ClientMsg_Data (b :: data) eof)])
         = Receiving).
Proof. repeat split. Qed.

(** * Further properties: the adapter *)

Lemma int32_small (x : Z) :
  (- 2 ^ 31 <= x < 2 ^ 31)%Z -> int32 x = x.
Proof.
  intros H. unfold int32. rewrite Z.mod_small; lia.
Qed.

Lemma int32_add (x y : Z) : int32 (int32 x + y) = int32 (x + y).
Proof.
  unfold int32. f_equal.
  replace ((x + 2 ^ 31) mod 2 ^ 32 - 2 ^ 31 + y + 2 ^ 31)%Z
    with ((x + 2 ^ 31) mod 2 ^ 32 + y)%Z by lia.
  rewrite Zplus_mod_idemp_l. f_equal. lia.
Qed.

(** X1: a status in the range of int32 given to [WriteHeader] before the
    headers are committed goes out unchanged, in one [ResultStart] frame
    with the headers held at that moment. *)
Theorem WriteHeader_status_on_the_wire
  (env : Env) (s : Session) (status : Z) :
  headerWritten (w (state s)) = false ->
  (- 2 ^ 31 <= status < 2 ^ 31)%Z ->
  exists s',
    WriteHeader env status s = Val tt s'
    /\ sent_since s s' =
       [(RunnerMsg_ResultStart (range_headers (outHeaders (w (state s))))
                               status,
         send_result env (length (engagement s)))]
    /\ headerWritten (w (state s')) = true.
Proof.
  open_session s. cbn. intros -> Hr.
  run_model; eexists; (split; [reflexivity |]); log_simpl;
    rewrite (int32_small status Hr); split; reflexivity.
Qed.

Lemma WriteHeader_witness :
  (- 2 ^ 31 <= 404 < 2 ^ 31)%Z
  /\ exists s',
      WriteHeader env_ok 404 Engage_init = Val tt s'
      /\ frames s' = [RunnerMsg_ResultStart [] 404].
Proof.
  split; [lia |].
  destruct (WriteHeader_status_on_the_wire env_ok Engage_init 404 eq_refl)
    as (s' & H1 & H2 & _); [lia |].
  exists s'. split; [exact H1 |].
  unfold sent_since in H2. cbn in H2. unfold frames. rewrite H2. reflexivity.
Defined.

(** X2: the header list of a [ResultStart] frame has one entry for every
    value of every key of the header map, and no other; a key without
    values contributes nothing. *)
Theorem range_headers_entries (h : http_Header) :
  (forall k v,
      In {| Key := k; Value := v |} (range_headers h)
      <-> exists vals, In (k, vals) h /\ In v vals)
  /\ length (range_headers h)
     = fold_right (fun kv n => length (snd kv) + n) 0 h.
Proof.
  split.
  - intros k v. unfold range_headers. rewrite in_flat_map. split.
    + intros ([k' vals] & Hin & Hv). cbn in Hv.
      apply in_map_iff in Hv as (v' & Heq & Hv'). inversion Heq; subst.
      exists vals. split; assumption.
    + intros (vals & Hin & Hv). exists (k, vals). split; [assumption |].
      cbn. apply in_map_iff. exists v. split; [reflexivity | assumption].
  - induction h as [| [k vals] h IH]; cbn; [reflexivity |].
    rewrite length_app, length_map. unfold range_headers in IH.
    rewrite IH. reflexivity.
Qed.

(** X3: once the headers are committed, a change of the header map or a
    call of [WriteHeader] by the engine sends nothing; what was set before
    the first write is what the first write puts on the wire. *)
Theorem headers_are_fixed_by_the_first_write (env : Env) (s : Session) :
  (headerWritten (w (state s)) = true ->
   forall f status,
     sent_since s (step env s (EvEngine (OpHeader f))) = []
     /\ sent_since s (step env s (EvEngine (OpWriteHeader status))) = [])
  /\ (headerWritten (w (state s)) = false ->
      panicked s = false -> executor s = InSubmit ->
      forall f d,
        let s1 := step env s (EvEngine (OpHeader f)) in
        map fst (sent_since s (step env s1 (EvEngine (OpWrite d))))
        = [RunnerMsg_ResultStart
             (range_headers (f (outHeaders (w (state s)))))
             (int32 (outStatus (w (state s))));
           RunnerMsg_Data d false]).
Proof.
  open_session s. cbn. split.
  - intros -> f status. split; run_model; log_simpl; reflexivity.
  - intros -> -> -> f d. run_model; log_simpl; reflexivity.
Qed.

(** X4: [Write] reports the outcome of its own [Data] send only: the length
    of the data when that send succeeded, 0 and the wrapped error when it
    failed; an error of the header send before it is not reported.  The
    same holds of [Close]. *)
Theorem Write_and_Close_report_their_own_send (env : Env) (s : Session) :
  (forall d, exists s1 s',
      commitHeaders env s = Val tt s1
      /\ Write env d s
         = Val (match send_result env (length (engagement s1)) with
                | None => (Z.of_nat (length d), None)
                | Some e => (0%Z, Some (Errorf "Error sending data: " e))
                end) s')
  /\ (exists s1 s',
      commitHeaders env s = Val tt s1
      /\ Close env s
         = Val (match send_result env (length (engagement s1)) with
                | None => None
                | Some e => Some (Errorf "Error sending close frame: " e)
                end) s').
Proof.
  open_session s. split; [intros d |];
    run_model; do 2 eexists; (split; [reflexivity |]); cbn; use_sends;
    reflexivity.
Qed.

(** * Further properties: the runner *)

Section ServerFacts.

Context {Agent Certificate CertPool : Type}.
Variable disk : Server.Disk Certificate CertPool.

Lemma net_change_from (ts : list Server.Tab) : forall n : Z,
  fold_left (fun n t => match t with
                        | Server.Begins => n + 1
                        | Server.Ends => n - 1
                        end)%Z ts n
  = (n + Server.net_change ts)%Z.
Proof.
  unfold Server.net_change.
  induction ts as [| t ts IH]; intros n; cbn [fold_left]; [lia |].
  rewrite IH. symmetry. rewrite IH. destruct t; lia.
Qed.

Lemma net_change_cons (t : Server.Tab) (ts : list Server.Tab) :
  Server.net_change (t :: ts)
  = (match t with Server.Begins => 1 | Server.Ends => -1 end
     + Server.net_change ts)%Z.
Proof.
  unfold Server.net_change at 1. cbn [fold_left].
  rewrite net_change_from. destruct t; lia.
Qed.

Lemma int32_range (x : Z) : (- 2 ^ 31 <= int32 x < 2 ^ 31)%Z.
Proof.
  unfold int32.
  pose proof (Z.mod_pos_bound (x + 2 ^ 31) (2 ^ 32)). lia.
Qed.

Lemma tabs_inflight (ts : list Server.Tab) :
  forall pr : Server.pureRunner Agent Certificate CertPool,
  (- 2 ^ 31 <= Server.inflight pr < 2 ^ 31)%Z ->
  Server.inflight (Server.tabs pr ts)
  = int32 (Server.inflight pr + Server.net_change ts).
Proof.
  unfold Server.tabs.
  induction ts as [| t ts IH]; intros pr Hr.
  - cbn. rewrite Z.add_0_r. symmetry. apply int32_small, Hr.
  - cbn [fold_left]. rewrite IH.
    + rewrite net_change_cons.
      destruct t; cbn [Server.tab Server.Engage_enter Server.Engage_leave
                         Server.atomic_AddInt32 Server.inflight];
        rewrite int32_add; f_equal; lia.
    + destruct t; apply int32_range.
Qed.

End ServerFacts.

(** X5: the in-flight counter.  On a runner whose counter is within int32,
    after any sequence of engagements beginning and ending [Status] reports
    the starting count plus the number begun minus the number ended, wrapped
    to int32, and never an error; so on a fresh runner, with fewer than 2^31
    engagements open, it reports exactly how many are open, and an
    engagement that has returned leaves the count as it found it. *)
Theorem Status_counts_open_engagements
  (Agent Certificate CertPool : Type)
  (pr : Server.pureRunner Agent Certificate CertPool)
  (ts : list Server.Tab) :
  (- 2 ^ 31 <= Server.inflight pr < 2 ^ 31)%Z ->
  Server.Status (Server.tabs pr ts)
  = ({| Server.Active :=
          int32 (Server.inflight pr + Server.net_change ts) |}, None)
  /\ (Server.inflight pr = 0%Z ->
      (0 <= Server.net_change ts < 2 ^ 31)%Z ->
      Server.Active (fst (Server.Status (Server.tabs pr ts)))
      = Server.net_change ts)
  /\ Server.inflight (Server.Engage_leave (Server.Engage_enter pr))
     = Server.inflight pr.
Proof.
  intros Hr. unfold Server.Status. rewrite (tabs_inflight ts pr Hr).
  split; [reflexivity | split].
  - intros H0 Hn. cbn. rewrite H0. apply int32_small. lia.
  - cbn. rewrite int32_add. rewrite <- (int32_small _ Hr) at 2.
    f_equal. lia.
Qed.

Lemma Status_witness :
  let pr : Server.pureRunner unit unit unit :=
    {| Server.gRPCServer := {| Server.server_creds := None |};
       Server.listen := ":9190"; Server.a := tt; Server.inflight := 0 |} in
  (- 2 ^ 31 <= Server.inflight pr < 2 ^ 31)%Z
  /\ Server.Status
       (Server.tabs pr [Server.Begins; Server.Begins; Server.Ends;
                        Server.Begins])
     = ({| Server.Active := 2 |}, None).
Proof.
  cbv zeta. split; [cbn; lia |].
  refine (proj1 (Status_counts_open_engagements unit unit unit _ _ _)).
  cbn. lia.
Defined.

(** X6: with the certificate, the key or the authority's file name empty,
    [CreatePureRunner] does not read the disk and returns a runner whose
    server has no transport credentials, listening on the address given,
    with no engagement in flight, and no error - also when the other names
    are given. *)
Theorem CreatePureRunner_without_all_three_is_insecure
  (Agent Certificate CertPool : Type)
  (disk : Server.Disk Certificate CertPool)
  (addr : string) (ag : Agent) (cert key ca : string) :
  cert = "" \/ key = "" \/ ca = "" ->
  Server.CreatePureRunner disk addr ag cert key ca
  = (Some {| Server.gRPCServer := {| Server.server_creds := None |};
             Server.listen := addr;
             Server.a := ag;
             Server.inflight := 0 |}, None).
Proof.
  unfold Server.CreatePureRunner, Server.createPureRunner.
  intros [-> | [-> | ->]]; cbn.
  - reflexivity.
  - destruct (String.eqb cert ""); reflexivity.
  - destruct (String.eqb cert ""), (String.eqb key ""); reflexivity.
Qed.

(** X7: with all three names given, [CreatePureRunner] returns either a
    runner or an error, never both and never neither.  A runner is returned
    exactly when the key pair loads, the authority's file is read and its
    contents are accepted into the pool; its server then requires and
    verifies client certificates against that pool and presents the loaded
    certificate.  Otherwise the error names the first of the three steps
    that failed. *)
Theorem CreatePureRunner_with_all_three_is_mutual_TLS
  (Agent Certificate CertPool : Type)
  (disk : Server.Disk Certificate CertPool)
  (addr : string) (ag : Agent) (cert key ca : string) :
  cert <> "" -> key <> "" -> ca <> "" ->
  match Server.LoadX509KeyPair disk cert key with
  | inr err =>
      Server.CreatePureRunner disk addr ag cert key ca
      = (None, Some (Errorf "Could not load server key pair: " err))
  | inl certificate =>
      match Server.ReadFile disk ca with
      | inr err =>
          Server.CreatePureRunner disk addr ag cert key ca
          = (None, Some (Errorf "Could not read ca certificate: " err))
      | inl authority =>
          match Server.AppendCertsFromPEM disk (Server.NewCertPool disk)
                                          authority with
          | (_, false) =>
              Server.CreatePureRunner disk addr ag cert key ca
              = (None, Some "Failed to append client certs")
          | (pool, true) =>
              Server.CreatePureRunner disk addr ag cert key ca
              = (Some {| Server.gRPCServer :=
                           {| Server.server_creds :=
                                Some {| Server.ClientAuth :=
                                          Server.RequireAndVerifyClientCert;
                                        Server.Certificates := [certificate];
                                        Server.ClientCAs := pool |} |};
                         Server.listen := addr;
                         Server.a := ag;
                         Server.inflight := 0 |}, None)
          end
      end
  end.
Proof.
  intros Hc Hk Ha.
  apply String.eqb_neq in Hc, Hk, Ha.
  unfold Server.CreatePureRunner, Server.creds, Server.createPureRunner.
  rewrite Hc, Hk, Ha. cbn.
  destruct (Server.LoadX509KeyPair disk cert key); [| reflexivity].
  destruct (Server.ReadFile disk ca); [| reflexivity].
  destruct (Server.AppendCertsFromPEM disk (Server.NewCertPool disk) l)
    as [pool [|]]; reflexivity.
Qed.

Lemma CreatePureRunner_insecure_witness :
  ("server.crt" = "" \/ "server.key" = "" \/ "" = "")
  /\ Server.CreatePureRunner disk_ok ":9190" tt "server.crt" "server.key" ""
     = (Some {| Server.gRPCServer := {| Server.server_creds := None |};
                Server.listen := ":9190";
                Server.a := tt;
                Server.inflight := 0 |}, None).
Proof.
  split; [right; right; reflexivity |].
  apply (CreatePureRunner_without_all_three_is_insecure
           unit string (list (list byte)) disk_ok).
  right; right; reflexivity.
Defined.

Lemma CreatePureRunner_mutual_TLS_witness :
  "server.crt" <> "" /\ "server.key" <> "" /\ "ca.pem" <> ""
  /\ Server.CreatePureRunner disk_ok ":9190" tt
       "server.crt" "server.key" "ca.pem"
     = (Some {| Server.gRPCServer :=
                  {| Server.server_creds :=
                       Some {| Server.ClientAuth :=
                                 Server.RequireAndVerifyClientCert;
                               Server.Certificates :=
                                 ["server.crtserver.key"];
                               Server.ClientCAs := [hello] |} |};
                Server.listen := ":9190";
                Server.a := tt;
                Server.inflight := 0 |}, None).
Proof.
  assert (H1 : "server.crt" <> "") by discriminate.
  assert (H2 : "server.key" <> "") by discriminate.
  assert (H3 : "ca.pem" <> "") by discriminate.
  repeat (split; [assumption |]).
  exact (CreatePureRunner_with_all_three_is_mutual_TLS
           unit string (list (list byte)) disk_ok ":9190" tt
           "server.crt" "server.key" "ca.pem" H1 H2 H3).
Defined.

(** * Further properties: the session *)

Section SessionFacts.

Variable env : Env.

Lemma status_200_step s ev :
  is_WriteHeader ev = false ->
  outStatus (w (state s)) = 200%Z /\ all_status_200 (frames s) = true ->
  outStatus (w (state (step env s ev))) = 200%Z
  /\ all_status_200 (frames (step env s ev)) = true.
Proof.
  unfold all_status_200. open_session s. cbn. intros Hev (-> & H).
  open_event ev; try discriminate Hev; run_model; log_simpl;
    rewrite ?forallb_app, ?H; cbn; split; reflexivity.
Qed.

Lemma chunk_step s p d :
  input (state s) = Some p -> closed p = false ->
  panicked s = false -> receive_loop s = Receiving ->
  let s' := step env s (EvRecv (Recv_msg (ClientMsg_Data d false))) in
  input (state s') = Some {| written := written p ++ d; closed := false |}
  /\ engagement s' = engagement s
  /\ receive_loop s' = Receiving
  /\ panicked s' = false
  /\ c (state s') = c (state s).
Proof.
  open_session s. destruct p as [wr cl]. cbn. intros -> -> -> ->.
  destruct d; run_model; rewrite ?app_nil_r; repeat split.
Qed.

Lemma chunks_run ds : forall s p,
  input (state s) = Some p -> closed p = false ->
  panicked s = false -> receive_loop s = Receiving ->
  let s' := run env s (chunks ds) in
  input (state s')
  = Some {| written := written p ++ concat ds; closed := false |}
  /\ engagement s' = engagement s
  /\ receive_loop s' = Receiving
  /\ panicked s' = false
  /\ c (state s') = c (state s).
Proof.
  induction ds as [| d ds IH]; intros s p Hi Hc Hp Hl.
  - cbn. destruct p as [wr cl]. cbn in *. subst cl.
    rewrite app_nil_r. repeat split; assumption.
  - destruct (chunk_step s p d Hi Hc Hp Hl) as (H1 & H2 & H3 & H4 & H5).
    cbn [chunks map run fold_left].
    destruct (IH _ _ H1 eq_refl H4 H3) as (K1 & K2 & K3 & K4 & K5).
    unfold run, chunks in *. cbn [written] in K1.
    rewrite K1, K2, K3, K4, K5, H2, H5, <- app_assoc.
    repeat split.
Qed.

Lemma executor_Done_step s ev :
  executor_inv s -> executor s = Done -> executor (step env s ev) = Done.
Proof.
  unfold executor_inv. open_session s. cbn. intros (H1 & _) ->.
  destruct st; [| specialize (H1 eq_refl); discriminate].
  open_event ev; run_model; reflexivity.
Qed.

Lemma inert_step s ev x :
  receive_loop s = Returned x -> executor s = NotLaunched ->
  step env s ev = s.
Proof.
  open_session s. cbn. intros -> ->.
  open_event ev; run_model; reflexivity.
Qed.

Lemma inert_run sched : forall s x,
  receive_loop s = Returned x -> executor s = NotLaunched ->
  run env s sched = s.
Proof.
  induction sched as [| ev sched IH]; intros s x Hl He; [reflexivity |].
  cbn [run fold_left]. rewrite (inert_step s ev x Hl He).
  apply (IH s x Hl He).
Qed.

Lemma write_step s d :
  panicked s = false -> executor s = InSubmit ->
  headerWritten (w (state s)) = true ->
  send_result env (length (engagement s)) = None ->
  step env s (EvEngine (OpWrite d))
  = set_engagement (engagement s ++ [(RunnerMsg_Data d false, None)]) s.
Proof.
  open_session s. cbn. intros -> -> -> Hs.
  unfold_model; cbn. rewrite Hs. reflexivity.
Qed.

Lemma writes_run ds : forall s,
  panicked s = false -> executor s = InSubmit ->
  headerWritten (w (state s)) = true ->
  (forall n, send_result env n = None) ->
  run env s (writes ds)
  = set_engagement
      (engagement s ++ map (fun d => (RunnerMsg_Data d false, None)) ds) s.
Proof.
  induction ds as [| d ds IH]; intros s Hp He Hh Hs.
  - cbn. rewrite app_nil_r. now destruct s.
  - cbn [writes map run fold_left].
    rewrite (write_step s d Hp He Hh (Hs _)).
    unfold run, writes in IH. rewrite IH; try assumption.
    cbn. rewrite <- app_assoc. reflexivity.
Qed.

End SessionFacts.

(** X8: the status defaults to 200.  In a session whose engine never calls
    [WriteHeader], every [ResultStart] frame on the stream carries status
    200. *)
Theorem default_status_is_200 (env : Env) (sched : list Event) :
  forallb (fun ev => negb (is_WriteHeader ev)) sched = true ->
  forall h status,
    In (RunnerMsg_ResultStart h status) (frames (run env Engage_init sched)) ->
    status = 200%Z.
Proof.
  intros Hs.
  assert (H : outStatus (w (state (run env Engage_init sched))) = 200%Z
              /\ all_status_200 (frames (run env Engage_init sched)) = true).
  { induction sched as [| ev sched IH] using rev_ind.
    - split; reflexivity.
    - rewrite forallb_app in Hs. apply andb_prop in Hs as [Hs Hev].
      cbn in Hev. rewrite andb_true_r in Hev.
      rewrite run_snoc. apply status_200_step.
      + now apply negb_true_iff.
      + apply IH, Hs. }
  destruct H as [_ H]. unfold all_status_200 in H.
  rewrite forallb_forall in H. intros h status Hin.
  specialize (H _ Hin). cbn in H. now apply Z.eqb_eq.
Qed.

Lemma default_status_witness :
  let sched := sched_streaming "c1"
               ++ [EvEngine (OpWrite hello); EvSubmitReturns None] in
  forallb (fun ev => negb (is_WriteHeader ev)) sched = true
  /\ In (RunnerMsg_ResultStart [] 200) (frames (run env_ok Engage_init sched))
  /\ forall h status,
      In (RunnerMsg_ResultStart h status)
         (frames (run env_ok Engage_init sched)) ->
      status = 200%Z.
Proof.
  cbv zeta. split; [reflexivity | split].
  - right. left. reflexivity.
  - apply (default_status_is_200 env_ok). reflexivity.
Defined.

Section InputFacts.

Variable env : Env.

(** A chunk finds the goroutine not yet launched, or launched and inside
    [Submit]; it leaves it inside [Submit]. *)
Lemma chunk_step_launch s p d eof :
  input (state s) = Some p -> closed p = false ->
  panicked s = false -> receive_loop s = Receiving ->
  (executor s = NotLaunched /\ started (state s) = false)
  \/ (executor s = InSubmit /\ started (state s) = true) ->
  let s' := step env s (EvRecv (Recv_msg (ClientMsg_Data d eof))) in
  executor s' = InSubmit /\ started (state s') = true.
Proof.
  open_session s. destruct p as [wr cl]. cbn. intros -> -> -> -> H.
  destruct H as [[-> ->] | [-> ->]]; destruct d, eof; run_model;
    split; reflexivity.
Qed.

Lemma chunks_run_launch ds : forall s p,
  input (state s) = Some p -> closed p = false ->
  panicked s = false -> receive_loop s = Receiving ->
  (executor s = NotLaunched /\ started (state s) = false)
  \/ (executor s = InSubmit /\ started (state s) = true) ->
  (executor (run env s (chunks ds)) = NotLaunched
   /\ started (state (run env s (chunks ds))) = false)
  \/ (executor (run env s (chunks ds)) = InSubmit
      /\ started (state (run env s (chunks ds))) = true).
Proof.
  induction ds as [| d ds IH]; intros s p Hi Hc Hp Hl Hx; [exact Hx |].
  destruct (chunk_step env s p d Hi Hc Hp Hl) as (H1 & _ & H3 & H4 & _).
  pose proof (chunk_step_launch s p d false Hi Hc Hp Hl Hx) as Hx'.
  cbn [chunks map run fold_left].
  apply (IH _ _ H1 eq_refl H4 H3). right. exact Hx'.
Qed.

Lemma last_chunk_step s p last :
  input (state s) = Some p -> closed p = false ->
  panicked s = false -> receive_loop s = Receiving ->
  let s' := step env s (EvRecv (Recv_msg (ClientMsg_Data last true))) in
  input (state s') = Some {| written := written p ++ last; closed := true |}
  /\ c (state s') = c (state s)
  /\ engagement s' = engagement s
  /\ receive_loop s' = Receiving
  /\ panicked s' = false.
Proof.
  open_session s. destruct p as [wr cl]. cbn. intros -> -> -> ->.
  destruct last; run_model; rewrite ?app_nil_r; repeat split.
Qed.

End InputFacts.

(** X9: the input of a call reaches its pipe in order.  In a session that
    begins with a [Try] that parses, is admitted and is acknowledged, and
    where the chunks [ds], none the last, and then a last chunk follow while
    the executor launched by the first of them is inside [Submit] reading
    its input: the bytes handed to the call's input pipe are the payloads in
    arrival order, the pipe is closed after the last, nothing but the
    acknowledgement was sent, and the loop is still receiving. *)
Theorem input_pipe_receives_the_chunks
  (env : Env) (json : string) (cm : models_Call) (cl : call)
  (ds : list (list byte)) (last : list byte) :
  json_Unmarshal env json = inl cm ->
  GetCall env 1 cm = inl cl ->
  send_result env 0 = None ->
  let s := run env Engage_init
             (EvRecv (Recv_msg (ClientMsg_Try json))
              :: chunks ds
              ++ [EvRecv (Recv_msg (ClientMsg_Data last true))]) in
  input (state s) = Some {| written := concat ds ++ last; closed := true |}
  /\ executor s = InSubmit
  /\ c (state s) = Some cl
  /\ map fst (engagement s)
     = [RunnerMsg_Acknowledged true (ID (Model cl))
          (Duration_String env (time_Now env 1 - time_Now env 0))]
  /\ receive_loop s = Receiving
  /\ panicked s = false.
Proof.
  intros Hj Hg Hs s. subst s.
  change (run env Engage_init
            (EvRecv (Recv_msg (ClientMsg_Try json))
             :: chunks ds ++ [EvRecv (Recv_msg (ClientMsg_Data last true))]))
    with (run env (step env Engage_init
                     (EvRecv (Recv_msg (ClientMsg_Try json))))
            (chunks ds ++ [EvRecv (Recv_msg (ClientMsg_Data last true))])).
  rewrite run_snoc.
  set (s1 := step env Engage_init (EvRecv (Recv_msg (ClientMsg_Try json)))).
  assert (E1 : input (state s1) = Some new_Pipe
               /\ panicked s1 = false
               /\ receive_loop s1 = Receiving
               /\ c (state s1) = Some cl
               /\ executor s1 = NotLaunched
               /\ started (state s1) = false
               /\ map fst (engagement s1)
                  = [RunnerMsg_Acknowledged true (ID (Model cl))
                       (Duration_String env
                          (time_Now env 1 - time_Now env 0))]).
  { subst s1. unfold_model; cbn. rewrite Hj; cbn. rewrite Hg; cbn.
    rewrite Hs; cbn. repeat split. }
  destruct E1 as (I1 & P1 & L1 & C1 & X1 & St1 & F1).
  destruct (chunks_run env ds s1 new_Pipe I1 eq_refl P1 L1)
    as (K1 & K2 & K3 & K4 & K5).
  pose proof (chunks_run_launch env ds s1 new_Pipe I1 eq_refl P1 L1
                (or_introl (conj X1 St1))) as KX.
  cbn [written new_Pipe app] in K1.
  destruct (last_chunk_step env _ _ last K1 eq_refl K4 K3)
    as (M1 & M2 & M3 & M4 & M5).
  pose proof (chunk_step_launch env _ _ last true K1 eq_refl K4 K3 KX)
    as [N1 _].
  cbn [written] in M1.
  rewrite M1, M2, M3, M4, M5, N1, K2, K5, C1, F1. repeat split.
Qed.

Lemma input_pipe_witness :
  json_Unmarshal env_ok "c1" = inl {| ID := "c1" |}
  /\ input (state (run env_ok Engage_init
                     (EvRecv (Recv_msg (ClientMsg_Try "c1"))
                      :: chunks [hello; ten_bytes]
                      ++ [EvRecv (Recv_msg (ClientMsg_Data hello true))])))
     = Some {| written := concat [hello; ten_bytes] ++ hello;
               closed := true |}.
Proof.
  split; [reflexivity |].
  exact (proj1
    (input_pipe_receives_the_chunks env_ok "c1" {| ID := "c1" |}
       {| Model := {| ID := "c1" |}; reservedSlot := Some tt |}
       [hello; ten_bytes] hello eq_refl eq_refl eq_refl)).
Defined.

(** X10: data after the end of the input.  Once the pipe is closed, a chunk
    with a payload makes the receive loop return the pipe's error, with
    nothing sent and the pipe as it was; an empty chunk is accepted and the
    loop goes on. *)
Theorem Data_after_Eof_ends_the_loop
  (env : Env) (s : Session) (p : PipeWriter) (eof : bool) :
  input (state s) = Some p -> closed p = true ->
  panicked s = false -> receive_loop s = Receiving ->
  (forall b d,
      let s' := step env s (EvRecv (Recv_msg (ClientMsg_Data (b :: d) eof))) in
      receive_loop s' = Returned (Some ErrClosedPipe)
      /\ engagement s' = engagement s
      /\ input (state s') = Some p
      /\ panicked s' = false)
  /\ (let s' := step env s (EvRecv (Recv_msg (ClientMsg_Data [] eof))) in
      receive_loop s' = Receiving
      /\ engagement s' = engagement s
      /\ input (state s') = Some p
      /\ panicked s' = false).
Proof.
  open_session s. destruct p as [wr cl]. cbn. intros -> -> -> ->.
  split; [intros b d |]; destruct eof; run_model; repeat split.
Qed.

Lemma Data_after_Eof_witness :
  let s := run env_ok Engage_init
             [EvRecv (Recv_msg (ClientMsg_Try "c1"));
              EvRecv (Recv_msg (ClientMsg_Data hello true))] in
  input (state s) = Some {| written := hello; closed := true |}
  /\ receive_loop (step env_ok s (EvRecv (Recv_msg (ClientMsg_Data hello false))))
     = Returned (Some ErrClosedPipe).
Proof.
  cbv zeta. split; [reflexivity |].
  destruct (Data_after_Eof_ends_the_loop env_ok
              (run env_ok Engage_init
                 [EvRecv (Recv_msg (ClientMsg_Try "c1"));
                  EvRecv (Recv_msg (ClientMsg_Data hello true))])
              {| written := hello; closed := true |} false
              eq_refl eq_refl eq_refl eq_refl) as [H _].
  exact (proj1 (H x68 [x65; x6c; x6c; x6f])).
Defined.

(** X11: the executor runs once per session.  Once the goroutine has
    finished, no later message or event launches it again. *)
Theorem executor_is_launched_once (env : Env) (sched later : list Event) :
  executor (run env Engage_init sched) = Done ->
  executor (run env Engage_init (sched ++ later)) = Done.
Proof.
  intros H. induction later as [| ev later IH] using rev_ind.
  - now rewrite app_nil_r.
  - rewrite app_assoc, run_snoc. apply executor_Done_step; [| exact IH].
    apply run_invariant.
    + split; [reflexivity | cbn; unfold count; cbn; lia].
    + intros s0 ev0. apply executor_inv_step.
Qed.

Lemma executor_once_witness :
  let sched := sched_streaming "c1" ++ [EvSubmitReturns None] in
  executor (run env_ok Engage_init sched) = Done
  /\ executor (run env_ok Engage_init
                 (sched ++ [EvRecv (Recv_msg (ClientMsg_Data hello false))]))
     = Done.
Proof.
  cbv zeta. split; [reflexivity |].
  apply (executor_is_launched_once env_ok). reflexivity.
Defined.

(** X12: only a failed [Recv] and the last chunk close the input pipe.
    Any other event - a chunk that is not the last, a [Try] whether
    admitted or refused, an unrecognised message, anything the executor
    does - leaves an open input pipe open, also when it ends the receive
    loop. *)
Theorem other_events_leave_the_input_open
  (env : Env) (s : Session) (p : PipeWriter) (ev : Event) :
  input (state s) = Some p -> closed p = false ->
  closes_input ev = false ->
  exists p', input (state (step env s ev)) = Some p' /\ closed p' = false.
Proof.
  open_session s. destruct p as [wr cl]. cbn. intros -> -> Hev.
  open_event ev; try discriminate Hev; run_model;
    try (eexists; split; reflexivity).
  all: destruct Eof; try discriminate Hev.
  all: try (eexists; split; reflexivity).
Qed.

Lemma input_left_open_witness :
  let s := run env_ok Engage_init (sched_streaming "c1") in
  input (state s) = Some {| written := hello; closed := false |}
  /\ receive_loop (step env_ok s (EvRecv (Recv_msg ClientMsg_other)))
     = Returned (Some "Unrecognized or unhandled message in receive loop")
  /\ exists p',
      input (state (step env_ok s (EvRecv (Recv_msg ClientMsg_other))))
      = Some p' /\ closed p' = false.
Proof.
  cbv zeta. split; [reflexivity | split; [reflexivity |]].
  apply (other_events_leave_the_input_open env_ok _
           {| written := hello; closed := false |});
    reflexivity.
Defined.

(** X13: a call that goes well, end to end.  When every send succeeds, the
    descriptor parses and the call is admitted, a [Try], one last chunk [d],
    the engine's writes [ds] and a [Submit] that returns nil put on the
    stream, in this order: the acknowledgement with the call's ID, one
    header frame with status 200, the chunks [ds], the end-of-stream frame
    and [Finished] with Success = true; the input pipe holds [d] and is
    closed, and the receive loop is still receiving. *)
Theorem successful_call_end_to_end
  (env : Env) (json : string) (cm : models_Call) (cl : call)
  (d : list byte) (ds : list (list byte)) :
  (forall n, send_result env n = None) ->
  json_Unmarshal env json = inl cm ->
  GetCall env 1 cm = inl cl ->
  let s := run env Engage_init
             ([EvRecv (Recv_msg (ClientMsg_Try json));
               EvRecv (Recv_msg (ClientMsg_Data d true))]
              ++ writes ds ++ [EvSubmitReturns None]) in
  frames s
  = [RunnerMsg_Acknowledged true (ID (Model cl))
       (Duration_String env (time_Now env 1 - time_Now env 0));
     RunnerMsg_ResultStart [] 200]
    ++ map (fun x => RunnerMsg_Data x false) ds
    ++ [RunnerMsg_Data [] true; RunnerMsg_Finished true (ID (Model cl))]
  /\ input (state s) = Some {| written := d; closed := true |}
  /\ executor s = Done
  /\ receive_loop s = Receiving
  /\ streamError (state s) = None
  /\ panicked s = false.
Proof.
  intros Hs Hj Hg s. subst s.
  unfold run. rewrite !fold_left_app. cbn [fold_left].
  set (s1 := step env Engage_init (EvRecv (Recv_msg (ClientMsg_Try json)))).
  assert (E1 : s1 =
    {| state := {| c := Some cl;
                   w := {| outHeaders := []; outStatus := 200;
                           headerWritten := false |};
                   input := Some new_Pipe;
                   started := false;
                   receivedTime := time_Now env 0;
                   allocatedTime := time_Now env 1;
                   streamError := None |};
       engagement :=
         [(RunnerMsg_Acknowledged true (ID (Model cl))
             (Duration_String env (time_Now env 1 - time_Now env 0)), None)];
       clock := 2;
       executor := NotLaunched;
       receive_loop := Receiving;
       panicked := false |}).
  { subst s1. unfold_model; cbn. rewrite Hj; cbn. rewrite Hg; cbn.
    rewrite Hs; cbn. reflexivity. }
  rewrite E1. clear s1 E1.
  set (s2 := step env _ (EvRecv (Recv_msg (ClientMsg_Data d true)))).
  assert (E2 : s2 =
    {| state := {| c := Some cl;
                   w := {| outHeaders := []; outStatus := 200;
                           headerWritten := false |};
                   input := Some {| written := d; closed := true |};
                   started := true;
                   receivedTime := time_Now env 0;
                   allocatedTime := time_Now env 1;
                   streamError := None |};
       engagement :=
         [(RunnerMsg_Acknowledged true (ID (Model cl))
             (Duration_String env (time_Now env 1 - time_Now env 0)), None)];
       clock := 2;
       executor := InSubmit;
       receive_loop := Receiving;
       panicked := false |}).
  { subst s2. destruct d; reflexivity. }
  rewrite E2. clear s2 E2.
  destruct ds as [| d1 ds].
  - cbn [writes map fold_left]. unfold_model; cbn.
    repeat (rewrite Hs; cbn). repeat split.
  - cbn [writes map fold_left].
    set (s3 := step env _ (EvEngine (OpWrite d1))).
    assert (E3 : s3 =
      {| state := {| c := Some cl;
                     w := {| outHeaders := []; outStatus := 200;
                             headerWritten := true |};
                     input := Some {| written := d; closed := true |};
                     started := true;
                     receivedTime := time_Now env 0;
                     allocatedTime := time_Now env 1;
                     streamError := None |};
         engagement :=
           [(RunnerMsg_Acknowledged true (ID (Model cl))
               (Duration_String env (time_Now env 1 - time_Now env 0)), None);
            (RunnerMsg_ResultStart [] 200, None);
            (RunnerMsg_Data d1 false, None)];
         clock := 2;
         executor := InSubmit;
         receive_loop := Receiving;
         panicked := false |}).
    { subst s3. unfold_model; cbn. rewrite !Hs; cbn. reflexivity. }
    rewrite E3. clear s3 E3.
    pose proof (writes_run env ds) as Hw. unfold run, writes in Hw.
    rewrite Hw; try reflexivity; try exact Hs. clear Hw.
    unfold_model; cbn. repeat (rewrite Hs; cbn). unfold frames. cbn.
    rewrite !map_app, map_map, <- !app_assoc. cbn. repeat split.
Qed.

Lemma successful_call_witness :
  (forall n, send_result env_ok n = None)
  /\ frames (run env_ok Engage_init
               ([EvRecv (Recv_msg (ClientMsg_Try "c1"));
                 EvRecv (Recv_msg (ClientMsg_Data hello true))]
                ++ writes [hello; ten_bytes] ++ [EvSubmitReturns None]))
     = [RunnerMsg_Acknowledged true "c1" "1ns";
        RunnerMsg_ResultStart [] 200;
        RunnerMsg_Data hello false;
        RunnerMsg_Data ten_bytes false;
        RunnerMsg_Data [] true;
        RunnerMsg_Finished true "c1"].
Proof.
  split; [reflexivity |].
  exact (proj1
    (successful_call_end_to_end env_ok "c1" {| ID := "c1" |}
       {| Model := {| ID := "c1" |}; reservedSlot := Some tt |}
       hello [hello; ten_bytes] (fun _ => eq_refl) eq_refl eq_refl)).
Defined.

(** X14: a refused first submission is the whole session.  When the first
    message is a [Try] that does not parse or is not admitted, the stream
    carries the one [Acknowledged] frame with Committed = false and nothing
    else, whatever arrives or is scheduled afterwards: the loop has
    returned, no call is allocated and the executor is never launched. *)
Theorem refused_first_Try_is_the_whole_session
  (env : Env) (json : string) (e : error) (later : list Event) :
  (json_Unmarshal env json = inr e
   \/ exists cm, json_Unmarshal env json = inl cm
                 /\ GetCall env 1 cm = inr e) ->
  let s := run env Engage_init
             (EvRecv (Recv_msg (ClientMsg_Try json)) :: later) in
  frames s = [RunnerMsg_Acknowledged false e ""]
  /\ receive_loop s = Returned (Some e)
  /\ executor s = NotLaunched
  /\ c (state s) = None.
Proof.
  intros H s. subst s. cbn [run fold_left].
  set (s1 := step env Engage_init (EvRecv (Recv_msg (ClientMsg_Try json)))).
  assert (H1 : frames s1 = [RunnerMsg_Acknowledged false e ""]
               /\ receive_loop s1 = Returned (Some e)
               /\ executor s1 = NotLaunched
               /\ c (state s1) = None).
  { subst s1. destruct H as [Hj | (cm & Hj & Hg)];
      unfold_model; cbn; rewrite Hj; cbn; try rewrite Hg; cbn;
      repeat (split_match; cbn); repeat split. }
  destruct H1 as (F & L & X & C0).
  pose proof (inert_run env later s1 (Some e) L X) as Hin.
  unfold run in Hin. rewrite Hin. repeat split; assumption.
Qed.

Lemma refused_first_Try_witness :
  json_Unmarshal env_ok "full" = inl {| ID := "full" |}
  /\ GetCall env_ok 1 {| ID := "full" |} = inr "no capacity"
  /\ frames (run env_ok Engage_init
               (EvRecv (Recv_msg (ClientMsg_Try "full"))
                :: sched_partial_output))
     = [RunnerMsg_Acknowledged false "no capacity" ""].
Proof.
  split; [reflexivity | split; [reflexivity |]].
  refine (proj1 (refused_first_Try_is_the_whole_session env_ok "full"
                   "no capacity" sched_partial_output _)).
  right. exists {| ID := "full" |}. split; reflexivity.
Defined.



(** X16: the fault flag is one-way.  Every assignment to [streamError]
    stores a non-nil error, so once it is set it stays set through whatever
    the two activities do next. *)
Theorem fault_flag_is_one_way
  (env : Env) (s : Session) (sched : list Event) (e : error) :
  streamError (state s) = Some e ->
  exists e', streamError (state (run env s sched)) = Some e'.
Proof.
  intros H.
  assert (Hn : streamError (state s) <> None) by (rewrite H; discriminate).
  pose proof (streamError_run env sched s Hn) as Hr.
  destruct (streamError (state (run env s sched))) as [e' |].
  - exists e'. reflexivity.
  - now contradiction Hr.
Qed.

Lemma fault_flag_witness :
  let s := run env_ok Engage_init
             (sched_streaming "c1" ++ [EvRecv (Recv_err "EOF")]) in
  streamError (state s) = Some "EOF"
  /\ exists e',
      streamError (state (run env_ok s [EvSubmitReturns None])) = Some e'.
Proof.
  cbv zeta. split; [reflexivity |].
  apply (fault_flag_is_one_way env_ok _ _ "EOF"). reflexivity.
Defined.

(** X17: a failed acknowledgement.  When the call is admitted but the send
    of its [Acknowledged] frame fails, the receive loop records the send
    error as the stream fault and returns it; the call stays allocated and
    its input pipe stays open. *)
Theorem failed_Acknowledge_ends_the_loop
  (env : Env) (s : Session) (json : string) (cm : models_Call) (cl : call)
  (e : error) :
  panicked s = false ->
  receive_loop s = Receiving ->
  streamError (state s) = None ->
  json_Unmarshal env json = inl cm ->
  GetCall env (S (clock s)) cm = inl cl ->
  send_result env (length (engagement s)) = Some e ->
  let s' := step env s (EvRecv (Recv_msg (ClientMsg_Try json))) in
  receive_loop s' = Returned (Some e)
  /\ streamError (state s') = Some e
  /\ map fst (sent_since s s')
     = [RunnerMsg_Acknowledged true (ID (Model cl))
          (Duration_String env
             (time_Now env (S (clock s)) - time_Now env (clock s)))]
  /\ c (state s') = Some cl
  /\ input (state s') = Some new_Pipe.
Proof.
  open_session s. cbn. intros -> -> -> Hj Hg Hs.
  unfold_model; cbn. rewrite Hj; cbn. rewrite Hg; cbn. rewrite Hs; cbn.
  log_simpl. repeat split.
Qed.

Lemma failed_Acknowledge_witness :
  let env := {| send_result := fun _ => Some "transport is closing";
                json_Unmarshal := json_Unmarshal env_ok;
                GetCall := GetCall env_ok;
                time_Now := time_Now env_ok;
                Duration_String := Duration_String env_ok |} in
  send_result env 0 = Some "transport is closing"
  /\ receive_loop (step env Engage_init (EvRecv (Recv_msg (ClientMsg_Try "c1"))))
     = Returned (Some "transport is closing")
  /\ input (state (step env Engage_init
                     (EvRecv (Recv_msg (ClientMsg_Try "c1")))))
     = Some new_Pipe.
Proof.
  cbv zeta. split; [reflexivity |].
  match goal with
  | |- context [step ?env _ _] =>
      destruct (failed_Acknowledge_ends_the_loop env Engage_init "c1"
                  {| ID := "c1" |}
                  {| Model := {| ID := "c1" |}; reservedSlot := Some tt |}
                  "transport is closing"
                  eq_refl eq_refl eq_refl eq_refl eq_refl eq_refl)
        as (H1 & _ & _ & _ & H5)
  end.
  split; [exact H1 | exact H5].
Defined.

(** X18: each activity sends its own frames.  Whatever the receive loop
    sends in a turn is an [Acknowledged] frame; whatever the engine and the
    executor goroutine send is a [ResultStart], [Data] or [Finished] frame,
    never an [Acknowledged]. *)
Theorem each_activity_sends_its_own_frames
  (env : Env) (s : Session) (ev : Event) :
  forallb (fun a => match ev with
                    | EvRecv _ => is_Acknowledged (fst a)
                    | _ => negb (is_Acknowledged (fst a))
                    end)
          (sent_since s (step env s ev)) = true.
Proof.
  open_session s. open_event ev; run_model; log_simpl; reflexivity.
Qed.
